(** * Mosaic subnet validator: the validation round engine

    A shallow embedding of [mosaic_subnet/validator/__init__.py] (class
    [Validator]), of the scorer back ends of [validator/model.py] and
    [validator/api.py], and of the settings of [validator/_config.py].

    Conventions of the embedding:
    - a Python [float] is an exact rational ([Q]); comparisons are the
      boolean comparisons of [Q] ([==] is [Qeq_bool], [>] is [Qlt_bool]);
    - a Python [dict] is an association list in insertion order;
    - a raised Python [Exception] is a value of [exn], and code that may
      raise returns a [result];
    - the mutable part of [self] (the deque [weights_histories]) is threaded
      through a state monad that also collects the calls made to the outside
      (vote submission, [time.sleep], the traceback print);
    - calls to the [loguru] logger change neither the state nor the control
      flow and are left out. *)

From Stdlib Require Import List ZArith QArith Qminmax String Ascii Bool Lia Lqa.
From Stdlib Require Import Setoid Morphisms.
Import ListNotations.

Set Implicit Arguments.
Set Warnings "-register-all".

Local Open Scope string_scope.
Local Open Scope list_scope.
Local Open Scope Q_scope.

(** ** Python values *)

Definition uid := Z.
Definition bytes := list Byte.byte.
Definition pyfloat := Q.

(** Instances of Python's [Exception]; every handler of the module is an
    [except Exception], which matches all of them. *)
Inductive exn : Type :=
| ValueError (msg : string)
| TypeError (msg : string)
| HTTPError (msg : string)
| ConnectionError (msg : string)
| RuntimeError (msg : string).

Inductive result (A : Type) : Type :=
| Ok (a : A)
| Raise (e : exn).
Arguments Ok {A} a.
Arguments Raise {A} e.

(** [x < y] on floats *)
Definition Qlt_bool (x y : Q) : bool := negb (Qle_bool y x).

(** [sum(l)] *)
Definition Qsum (l : list Q) : Q := fold_right Qplus 0 l.

(** Truth value of an [Optional[str]]: [None] and [""] are false. *)
Definition str_truthy (o : option string) : bool :=
  match o with
  | Some (String _ _) => true
  | _ => false
  end.

(** Truth value of an optional [bytes] payload: [None] and [b""] are false. *)
Definition bytes_truthy (o : option bytes) : bool :=
  match o with
  | Some (_ :: _) => true
  | _ => false
  end.

(** [s.rstrip('/')] *)
Fixpoint rstrip_slash (s : string) : string :=
  match s with
  | EmptyString => EmptyString
  | String c s' =>
      match rstrip_slash s' with
      | EmptyString => if Ascii.eqb c "/"%char then EmptyString else String c EmptyString
      | r => String c r
      end
  end.

(** ** Dictionaries: association lists in insertion order *)

Section Dict.
Variable K : Type.
Variable eqb : K -> K -> bool.
Variable V : Type.

Definition dict := list (K * V).

Definition keys (d : dict) : list K := map fst d.
Definition values (d : dict) : list V := map snd d.
Definition items (d : dict) : list (K * V) := d.

(** [d[k]] or, when [k not in d], [None] *)
Fixpoint dict_get (k : K) (d : dict) : option V :=
  match d with
  | [] => None
  | (k', v) :: d' => if eqb k' k then Some v else dict_get k d'
  end.

(** [d[k] = v]: the value is replaced in place when the key is present, and
    the item is added at the end when it is not. *)
Fixpoint dict_set (d : dict) (k : K) (v : V) : dict :=
  match d with
  | [] => [(k, v)]
  | (k', v') :: d' =>
      if eqb k' k then (k', v) :: d' else (k', v') :: dict_set d' k v
  end.

(** [{k: v for k, v in d.items() if keep v}] *)
Definition dict_comprehension (keep : V -> bool) (d : dict) : dict :=
  fold_left
    (fun acc kv => if keep (snd kv) then dict_set acc (fst kv) (snd kv) else acc)
    (items d) [].

(** [not d] *)
Definition dict_is_empty (d : dict) : bool :=
  match d with
  | [] => true
  | _ :: _ => false
  end.

(** The keys of a dictionary are pairwise distinct. *)
Definition is_dict (d : dict) : Prop := NoDup (keys d).

End Dict.

Arguments dict K V : clear implicits.
Arguments keys {K V} d.
Arguments values {K V} d.
Arguments items {K V} d.
Arguments dict_is_empty {K V} d.
Arguments is_dict {K V} d.

(** [zip(a, b, c, d, e)], as long as its shortest argument *)
Definition zip5 (A B C D E : Type)
  (a : list A) (b : list B) (c : list C) (d : list D) (e : list E)
  : list (A * B * C * D * E) :=
  map (fun t => match t with (x, (y, (z, (u, v)))) => (x, y, z, u, v) end)
      (combine a (combine b (combine c (combine d e)))).

(** ** [collections.deque] with [maxlen] *)

(** [d.append(x)]: the item is added on the right, and one item is dropped
    on the left when the length then exceeds [maxlen]. *)
Definition deque_append (A : Type) (maxlen : nat) (d : list A) (x : A) : list A :=
  let d' := d ++ [x] in
  if (maxlen <? List.length d')%nat then tl d' else d'.

(** ** Settings ([validator/_config.py]) *)

Record ValidatorSettings : Type := {
  use_testnet : bool;
  model : string;
  clip_model : string;
  api_url : option string;
  api_key : option string;
  host : string;
  port : Z;
  iteration_interval : Z;
  call_timeout : Z
}.

(** The values that [_config.py] declares as defaults of the fields. *)
Definition default_settings : ValidatorSettings := {|
  use_testnet := false;
  model := "hps";
  clip_model := "laion/CLIP-ViT-L-14-laion2B-s32B-b82K";
  api_url := None;
  api_key := None;
  host := "0.0.0.0";
  port := 8081;
  iteration_interval := 60;
  call_timeout := 30
|}.

(** ** Scorer back ends ([validator/model.py], [validator/api.py]) *)

(** A decoded JSON value. *)
Inductive jvalue : Type :=
| JNumber (q : Q)
| JBool (b : bool)
| JString (s : string)
| JNull
| JArray (l : list jvalue)
| JObject (fields : list (string * jvalue)).

(** What lies outside the scorers: the two local models and the remote
    scoring endpoint.
    - [clip_logits_sum name file prompt] is [logits_per_image.sum()] of the
      CLIP model [name], or the exception raised while opening the image or
      running the model;
    - [hpsv2_score file prompt] is [hpsv2.score(...)[0]], likewise;
    - [api_post_json url authorization file prompt] is the JSON object
      decoded from the reply to the POST request, or the exception raised by
      opening the image, by the transport, by [raise_for_status] or by the
      decoding; a reply that is not a JSON object makes [get_similarity]
      raise too and counts among them;
    - [float_of_str] is Python's [float] on a [str]. *)
Record Backends : Type := {
  clip_logits_sum : string -> bytes -> string -> result pyfloat;
  hpsv2_score : bytes -> string -> result pyfloat;
  api_post_json : string -> option string -> bytes -> string -> result (dict string jvalue);
  float_of_str : string -> option pyfloat
}.

(** Python's [float(v)] on a decoded JSON value *)
Definition py_float (b : Backends) (v : jvalue) : result pyfloat :=
  match v with
  | JNumber q => Ok q
  | JBool true => Ok 1
  | JBool false => Ok 0
  | JString s =>
      match float_of_str b s with
      | Some q => Ok q
      | None => Raise (ValueError "could not convert string to float")
      end
  | JNull | JArray _ | JObject _ =>
      Raise (TypeError "float() argument must be a string or a real number")
  end.

(** [self.model]: the three scorer classes *)
Inductive ScorerModel : Type :=
| CLIP (model_name : string)
| APIValidator (api_url_stripped : string) (authorization : option string)
| HPS.

(** [APIValidator.__init__] *)
Definition APIValidator_init (url : string) (key : option string) : ScorerModel :=
  APIValidator (rstrip_slash url) (if str_truthy key then key else None).

(** [get_similarity] of the three classes *)
Definition get_similarity (b : Backends) (m : ScorerModel) (file : bytes) (prompt : string)
  : result pyfloat :=
  match m with
  | CLIP name => clip_logits_sum b name file prompt
  | HPS =>
      match hpsv2_score b file prompt with
      | Ok r => Ok (r * 100)
      | Raise e => Raise e
      end
  | APIValidator url auth =>
      match api_post_json b (String.append url "/score") auth file prompt with
      | Raise e => Raise e
      | Ok reply =>
          match dict_get String.eqb "score" reply with
          | Some v => py_float b v
          | None =>
              match dict_get String.eqb "similarity" reply with
              | Some v => py_float b v
              | None => Raise (ValueError "Unexpected API response format")
              end
          end
      end
  end.

(** ** The validator *)

Definition miner_info := string.

Record SampleInput : Type := {
  prompt : string;
  steps : Z
}.

Record WeightHistory : Type := {
  time : Z;
  data : list (uid * pyfloat * pyfloat * pyfloat * pyfloat)
}.

(** The uid of a tuple of a round record *)
Definition tuple_uid (t : uid * pyfloat * pyfloat * pyfloat * pyfloat) : uid :=
  match t with (u, _, _, _, _) => u end.

Record Validator : Type := {
  settings : ValidatorSettings;
  netuid : Z;
  self_model : ScorerModel;
  self_call_timeout : Z;
  weights_histories : list WeightHistory
}.

Definition weights_histories_maxlen : nat := 10.

(** [Validator.__init__]; [get_netuid] stands for the ledger lookup
    [get_netuid(self.c_client)], whose client depends on [use_testnet]. The
    constructors of the scorer classes are taken to return; the fields [key]
    and [dataset], which no method modelled here reads, are left out.

    [settings or ValidatorSettings()]: a settings object is kept as it is.
    With [None] the call [ValidatorSettings()] is made, and it raises a
    [TypeError]: the class is a [@dataclass] over the settings class of
    pydantic, which takes the declared defaults away from the class, so the
    [__init__] that [@dataclass] writes requires every field. *)
Definition Validator_init (get_netuid : bool -> result Z) (settings0 : option ValidatorSettings)
  : result Validator :=
  match settings0 with
  | None =>
      Raise (TypeError "ValidatorSettings.__init__() missing required positional arguments")
  | Some settings =>
      match get_netuid (use_testnet settings) with
      | Raise e => Raise e
      | Ok netuid =>
          let selected :=
            if String.eqb (model settings) "clip" then Ok (CLIP (clip_model settings))
            else if String.eqb (model settings) "api" then
              if negb (str_truthy (api_url settings))
              then Raise (ValueError "API URL is required when using api model")
              else Ok (APIValidator_init
                         (match api_url settings with Some u => u | None => EmptyString end)
                         (api_key settings))
            else Ok HPS in
          match selected with
          | Raise e => Raise e
          | Ok m =>
              Ok {| settings := settings;
                    netuid := netuid;
                    self_model := m;
                    self_call_timeout := call_timeout settings;
                    weights_histories := [] |}
          end
      end
  end.

(** [Validator.calculate_score] *)
Definition calculate_score (b : Backends) (m : ScorerModel) (img : bytes) (prompt : string)
  : pyfloat :=
  match get_similarity b m img prompt with
  | Ok score => score
  | Raise _ => 0
  end.

(** Reply of the ledger client to a vote that did not raise. *)
Inductive vote_reply : Type :=
| VoteAccepted
| VoteRejected (reason : string).

(** What one round of the loop meets outside the validator.
    - [get_queryable_miners] is the registry lookup of [BaseValidator];
    - [random_prompt] is [self.dataset.random_prompt()];
    - [vote uids weights] is [self.c_client.vote(...)], building the client
      included;
    - [datetime_now] is [datetime.now()];
    - [time_before_round] and [time_after_round] are the two readings of
      [time.time()] around the round. *)
Record World : Type := {
  get_queryable_miners : result (dict uid miner_info);
  random_prompt : result string;
  get_miner_generation_with_elapsed : miner_info -> SampleInput -> option bytes * pyfloat;
  backends : Backends;
  vote : list uid -> list pyfloat -> result vote_reply;
  datetime_now : Z;
  time_before_round : Q;
  time_after_round : Q
}.

(** Calls made to the outside that the claims observe. *)
Inductive Event : Type :=
| VoteCall (uids : list uid) (weights : list pyfloat)
| Sleep (seconds : Q)
| PrintTraceback (e : exn).

(** *** The monad of the methods: state [self], exceptions, trace of calls.
    The state reached and the calls made before an exception are kept. *)

Definition M (A : Type) : Type := Validator -> result A * Validator * list Event.

Definition run (A : Type) (m : M A) (self : Validator) : result A * Validator * list Event :=
  m self.

Definition ret (A : Type) (a : A) : M A := fun self => (Ok a, self, []).

Definition raise (A : Type) (e : exn) : M A := fun self => (Raise e, self, []).

Definition bind (A B : Type) (m : M A) (k : A -> M B) : M B :=
  fun self =>
    match m self with
    | (Ok a, self1, t1) =>
        match k a self1 with
        | (r, self2, t2) => (r, self2, t1 ++ t2)
        end
    | (Raise e, self1, t1) => (Raise e, self1, t1)
    end.

(** [try: m  except Exception as e: handler e] *)
Definition try_except (A : Type) (m : M A) (handler : exn -> M A) : M A :=
  fun self =>
    match m self with
    | (Ok a, self1, t1) => (Ok a, self1, t1)
    | (Raise e, self1, t1) =>
        match handler e self1 with
        | (r, self2, t2) => (r, self2, t1 ++ t2)
        end
    end.

Definition lift (A : Type) (r : result A) : M A := fun self => (r, self, []).

Definition get_self : M Validator := fun self => (Ok self, self, []).

Definition emit (e : Event) : M unit := fun self => (Ok tt, self, [e]).

Notation "x <- m ;; k" := (bind m (fun x => k))
  (at level 61, m at next level, right associativity).
Notation "m ;;; k" := (bind m (fun _ => k))
  (at level 61, right associativity).

(** [self] with the deque [weights_histories] replaced *)
Definition set_weights_histories (self : Validator) (hs : list WeightHistory) : Validator :=
  {| settings := settings self;
     netuid := netuid self;
     self_model := self_model self;
     self_call_timeout := self_call_timeout self;
     weights_histories := hs |}.

(** [self.weights_histories.append(h)] *)
Definition weights_histories_append (h : WeightHistory) : M unit :=
  fun self =>
    (Ok tt,
     set_weights_histories self
       (deque_append weights_histories_maxlen (weights_histories self) h),
     []).

(** [self.c_client.vote(key=self.key, uids=uids, weights=weights, netuid=self.netuid)] *)
Definition c_client_vote (w : World) (uids : list uid) (weights : list pyfloat)
  : M vote_reply :=
  fun self => (vote w uids weights, self, [VoteCall uids weights]).

(** [time.sleep(seconds)] *)
Definition time_sleep (seconds : Q) : M unit := emit (Sleep seconds).

(** [print(traceback.format_exc())] *)
Definition print_traceback (e : exn) : M unit := emit (PrintTraceback e).

(** [Validator.get_validate_input] *)
Definition get_validate_input (w : World) : M SampleInput :=
  p <- lift (random_prompt w) ;;
  ret {| prompt := p; steps := 4 |}.

(** The scoring loop of [validate_step], over
    [zip(modules_info.keys(), miner_answers)]. The test [not miner_answer]
    is the match on the payload: [None] and [b""] skip the miner (see
    [bytes_truthy]). *)
Fixpoint score_loop (b : Backends) (m : ScorerModel) (prompt : string)
  (answers : list (uid * (option bytes * pyfloat)))
  (score_dict duration_dict : dict uid pyfloat) : dict uid pyfloat * dict uid pyfloat :=
  match answers with
  | [] => (score_dict, duration_dict)
  | (uid, (miner_answer, elapsed)) :: rest =>
      match miner_answer with
      | Some ((_ :: _) as img) =>
          let score := calculate_score b m img prompt in
          if Qeq_bool score 0 then score_loop b m prompt rest score_dict duration_dict
          else score_loop b m prompt rest
                 (dict_set Z.eqb score_dict uid score)
                 (dict_set Z.eqb duration_dict uid elapsed)
      | _ => score_loop b m prompt rest score_dict duration_dict
      end
  end.

Section Round.

(** [normalize_score] and [weight_score] of [validator/utils.py] *)
Variable normalize_score : dict uid pyfloat -> dict uid pyfloat -> dict uid pyfloat.
Variable weight_score : dict uid pyfloat -> dict uid pyfloat.

(** [Validator.validate_step] *)
Definition validate_step (w : World) : M unit :=
  self <- get_self ;;
  modules_info <- lift (get_queryable_miners w) ;;
  input <- get_validate_input w ;;
  let miner_answers :=
    map (fun miner_info => get_miner_generation_with_elapsed w miner_info input)
        (values modules_info) in
  match score_loop (backends w) (self_model self) (prompt input)
          (combine (keys modules_info) miner_answers) [] [] with
  | (score_dict, duration_dict) =>
      if dict_is_empty score_dict then ret tt
      else
        let normalized_scores := normalize_score score_dict duration_dict in
        let weighted_scores := weight_score normalized_scores in
        let weight_data :=
          zip5 (keys weighted_scores) (values score_dict) (values duration_dict)
               (values normalized_scores) (values weighted_scores) in
        weights_histories_append {| time := datetime_now w; data := weight_data |} ;;;
        let weighted_scores :=
          dict_comprehension Z.eqb (fun v => Qlt_bool 0 v) weighted_scores in
        if dict_is_empty weighted_scores then ret tt
        else
          try_except
            (let uids := keys weighted_scores in
             let weights := values weighted_scores in
             c_client_vote w uids weights ;;; ret tt)
            (fun e => ret tt)
  end.

(** One turn of the [while True] of [Validator.validation_loop] *)
Definition loop_iteration (w : World) : M unit :=
  self <- get_self ;;
  let settings := settings self in
  try_except
    (let start_time := time_before_round w in
     validate_step w ;;;
     let elapsed := time_after_round w - start_time in
     if Qlt_bool elapsed (inject_Z (iteration_interval settings)) then
       let sleep_time := inject_Z (iteration_interval settings) - elapsed in
       time_sleep sleep_time
     else ret tt)
    (fun e => print_traceback e).

(** [Validator.validation_loop], along the worlds of its successive turns.
    The loop has no exit of its own: [Ok tt] at the end of the list is the
    loop still running, [Raise e] is the loop ended by an exception. *)
Fixpoint validation_loop (ws : list World) : M unit :=
  match ws with
  | [] => ret tt
  | w :: ws' => loop_iteration w ;;; validation_loop ws'
  end.

(** The score and duration dictionaries of a round, as [validate_step]
    builds them from the miners [modules_info] and the prompt [p]. *)
Definition round_scores (w : World) (self : Validator)
  (modules_info : dict uid miner_info) (p : string)
  : dict uid pyfloat * dict uid pyfloat :=
  score_loop (backends w) (self_model self) p
    (combine (keys modules_info)
       (map (fun miner_info =>
               get_miner_generation_with_elapsed w miner_info {| prompt := p; steps := 4 |})
          (values modules_info)))
    [] [].

(** The record that [validate_step] appends for the dictionaries
    [score_dict] and [duration_dict] of a round. *)
Definition round_record (w : World) (score_dict duration_dict : dict uid pyfloat)
  : WeightHistory :=
  let normalized_scores := normalize_score score_dict duration_dict in
  let weighted_scores := weight_score normalized_scores in
  {| time := datetime_now w;
     data := zip5 (keys weighted_scores) (values score_dict) (values duration_dict)
                  (values normalized_scores) (values weighted_scores) |}.

(** The weights that [validate_step] keeps for the vote. *)
Definition emitted_weights (score_dict duration_dict : dict uid pyfloat) : dict uid pyfloat :=
  dict_comprehension Z.eqb (fun v => Qlt_bool 0 v)
    (weight_score (normalize_score score_dict duration_dict)).

End Round.

(** ** The missing [validator/utils.py] *)

(** Modelled from the spec: [normalize_score] of [validator/utils.py] is not
    among the sources. The spec (Normalizer/Weighting, "Normalize") has it
    take the maps uid -> raw_score and uid -> elapsed and produce a map
    uid -> normalized_score of the same peers, and leaves the formula open. *)
Definition normalize_contract
  (normalize_score : dict uid pyfloat -> dict uid pyfloat -> dict uid pyfloat) : Prop :=
  forall score_dict duration_dict,
    is_dict score_dict ->
    is_dict (normalize_score score_dict duration_dict) /\
    incl (keys (normalize_score score_dict duration_dict)) (keys score_dict).

(** Modelled from the spec: [weight_score] of [validator/utils.py] is not
    among the sources. The spec (Normalizer/Weighting, "Weight"): "given
    {uid -> normalized_score}, produce {uid -> weight} in [0,1] that sums to
    <= 1 across all uids", and "peers entirely absent from the input never
    appear in the output". *)
Definition weight_contract
  (weight_score : dict uid pyfloat -> dict uid pyfloat) : Prop :=
  forall normalized_scores,
    is_dict normalized_scores ->
    is_dict (weight_score normalized_scores) /\
    incl (keys (weight_score normalized_scores)) (keys normalized_scores) /\
    Forall (fun v => 0 <= v /\ v <= 1) (values (weight_score normalized_scores)) /\
    Qsum (values (weight_score normalized_scores)) <= 1.

(** Modelled from the spec: an instance of [normalize_score], by the
    max-score scaling with a latency penalty that the spec gives as an
    example: [score / max_score / (1 + elapsed)]. *)
Definition normalize_score_ref (score_dict duration_dict : dict uid pyfloat)
  : dict uid pyfloat :=
  let max_score := fold_right Qmax 0 (values score_dict) in
  map (fun kv =>
         let elapsed :=
           match dict_get Z.eqb (fst kv) duration_dict with
           | Some e => e
           | None => 0
           end in
         (fst kv,
          if Qeq_bool max_score 0 then 0
          else snd kv / max_score / (1 + Qmax 0 elapsed)))
      score_dict.

(** Modelled from the spec: an instance of [weight_score], by the formula
    that the spec gives as an example, [normalized_score / sum of the
    normalized scores], a negative score counting as 0. *)
Definition weight_score_ref (normalized_scores : dict uid pyfloat) : dict uid pyfloat :=
  let clamped := map (fun kv => (fst kv, Qmax 0 (snd kv))) normalized_scores in
  let total := Qsum (values clamped) in
  map (fun kv => (fst kv, if Qeq_bool total 0 then 0 else snd kv / total)) clamped.

(** ** Observations on a trace *)

(** The time spent in [time.sleep] along a trace. *)
Fixpoint slept (t : list Event) : Q :=
  match t with
  | [] => 0
  | Sleep seconds :: t' => seconds + slept t'
  | _ :: t' => slept t'
  end.

(** ** Sample worlds *)

(** A scoring endpoint whose reply is read off the first byte [b] of the
    payload: it fails on [0xff] and on an empty payload, and answers
    [{"score": b - 16}] otherwise. *)
Definition sample_backends : Backends := {|
  clip_logits_sum := fun _ _ _ => Raise (RuntimeError "no CLIP model");
  hpsv2_score := fun _ _ => Raise (RuntimeError "no HPS model");
  api_post_json := fun _ _ file _ =>
    match file with
    | [] => Raise (ValueError "cannot identify image file")
    | b :: _ =>
        if Byte.eqb b Byte.xff then Raise (HTTPError "503 Service Unavailable")
        else Ok [("score", JNumber (inject_Z (Z.of_N (Byte.to_N b) - 16)))]
    end;
  float_of_str := fun _ => None
|}.

Definition sample_settings : ValidatorSettings := {|
  use_testnet := true;
  model := "api";
  clip_model := "laion/CLIP-ViT-L-14-laion2B-s32B-b82K";
  api_url := Some "http://scorer.example/";
  api_key := None;
  host := "0.0.0.0";
  port := 8081;
  iteration_interval := 60;
  call_timeout := 30
|}.

Definition sample_validator : Validator := {|
  settings := sample_settings;
  netuid := 14;
  self_model := APIValidator_init "http://scorer.example/" None;
  self_call_timeout := 30;
  weights_histories := []
|}.

(** Five miners and a round: 1 scores 80 in 1 s, 2 scores 40 in 0.5 s, 3 scores 0,
    4 times out, and the endpoint fails on the payload of 5. The round
    takes 45 s. *)
Definition sample_miners : dict uid miner_info :=
  [(1%Z, "m1"); (2%Z, "m2"); (3%Z, "m3"); (4%Z, "m4"); (5%Z, "m5")].

Definition sample_world : World := {|
  get_queryable_miners := Ok sample_miners;
  random_prompt := Ok "a cat";
  get_miner_generation_with_elapsed := fun info _ =>
    if String.eqb info "m1" then (Some [Byte.x60], 1)
    else if String.eqb info "m2" then (Some [Byte.x38], 1 # 2)
    else if String.eqb info "m3" then (Some [Byte.x10], 2)
    else if String.eqb info "m5" then (Some [Byte.xff], 3)
    else (None, 30);
  backends := sample_backends;
  vote := fun _ _ => Ok VoteAccepted;
  datetime_now := 1700000000;
  time_before_round := 1000;
  time_after_round := 1045
|}.

(** The same round, with a ledger client that raises on the vote. *)
Definition sample_world_vote_raises : World := {|
  get_queryable_miners := get_queryable_miners sample_world;
  random_prompt := random_prompt sample_world;
  get_miner_generation_with_elapsed := get_miner_generation_with_elapsed sample_world;
  backends := sample_backends;
  vote := fun _ _ => Raise (ConnectionError "ledger unreachable");
  datetime_now := 1700000060;
  time_before_round := 1060;
  time_after_round := 1135
|}.

(** A round in which every miner times out. *)
Definition sample_world_timeouts : World := {|
  get_queryable_miners := get_queryable_miners sample_world;
  random_prompt := random_prompt sample_world;
  get_miner_generation_with_elapsed := fun _ _ => (None, 30);
  backends := sample_backends;
  vote := fun _ _ => Ok VoteAccepted;
  datetime_now := 1700000120;
  time_before_round := 1135;
  time_after_round := 1165
|}.

(** A round in which the registry lookup raises. *)
Definition sample_world_registry_down : World := {|
  get_queryable_miners := Raise (ConnectionError "registry unreachable");
  random_prompt := random_prompt sample_world;
  get_miner_generation_with_elapsed := get_miner_generation_with_elapsed sample_world;
  backends := sample_backends;
  vote := fun _ _ => Ok VoteAccepted;
  datetime_now := 1700000180;
  time_before_round := 1165;
  time_after_round := 1166
|}.

(** A round whose only miner sends a payload that the endpoint scores -14. *)
Definition sample_world_negative : World := {|
  get_queryable_miners := Ok [(7%Z, "m7")];
  random_prompt := Ok "a cat";
  get_miner_generation_with_elapsed := fun _ _ => (Some [Byte.x02], 1);
  backends := sample_backends;
  vote := fun _ _ => Ok VoteAccepted;
  datetime_now := 1700000240;
  time_before_round := 1200;
  time_after_round := 1201
|}.

(** A scoring endpoint that answers [{"similarity": b}] for the first byte
    [b] of the payload, and fails on an empty payload. *)
Definition sample_backends_nonneg : Backends := {|
  clip_logits_sum := fun _ _ _ => Raise (RuntimeError "no CLIP model");
  hpsv2_score := fun _ _ => Raise (RuntimeError "no HPS model");
  api_post_json := fun _ _ file _ =>
    match file with
    | [] => Raise (ValueError "cannot identify image file")
    | b :: _ => Ok [("similarity", JNumber (inject_Z (Z.of_N (Byte.to_N b))))]
    end;
  float_of_str := fun _ => None
|}.

(** ** Further methods of the validator files *)

(** [Validator.get_weights_history]: [list(self.weights_histories)] *)
Definition get_weights_history : M (list WeightHistory) :=
  self <- get_self ;;
  ret (weights_histories self).

(** The loop of [NSFWChecker.check_nsfw] over the output of the classifier,
    an item [{"label": l, "score": s}] being the pair [(l, s)]. *)
Fixpoint check_nsfw_loop (cs : list (string * pyfloat)) : bool :=
  match cs with
  | [] => false
  | c :: cs' =>
      if String.eqb (fst c) "nsfw" && Qlt_bool (8 # 10) (snd c) then true
      else check_nsfw_loop cs'
  end.

(** [NSFWChecker.check_nsfw]; [classifier file] is the output of the
    pipeline on the opened image, or the exception raised by opening the
    image or by the pipeline. *)
Definition check_nsfw (classifier : bytes -> result (list (string * pyfloat)))
  (file : bytes) : result bool :=
  match classifier file with
  | Ok cs => Ok (check_nsfw_loop cs)
  | Raise e => Raise e
  end.

(** ** Further observations on a round and on a trace *)

(** The answer of a miner to the input of a round with prompt [p]. *)
Definition miner_answer (w : World) (p : string) (info : miner_info)
  : option bytes * pyfloat :=
  get_miner_generation_with_elapsed w info {| prompt := p; steps := 4 |}.

(** The score of the payload of a miner, 0 standing for no payload. *)
Definition miner_score (w : World) (self : Validator) (p : string) (info : miner_info)
  : pyfloat :=
  match fst (miner_answer w p info) with
  | Some img => calculate_score (backends w) (self_model self) img p
  | None => 0
  end.

(** The miners that a round keeps: a payload that is there and not empty,
    and a score that is not 0. *)
Definition miner_kept (w : World) (self : Validator) (p : string)
  (kv : uid * miner_info) : bool :=
  bytes_truthy (fst (miner_answer w p (snd kv))) &&
  negb (Qeq_bool (miner_score w self p (snd kv)) 0).

(** The votes submitted along a trace. *)
Definition vote_calls (t : list Event) : list (list uid * list pyfloat) :=
  flat_map (fun ev => match ev with
                      | VoteCall uids weights => [(uids, weights)]
                      | _ => []
                      end) t.

(** The durations of the calls to [time.sleep] along a trace. *)
Definition sleep_calls (t : list Event) : list Q :=
  flat_map (fun ev => match ev with
                      | Sleep seconds => [seconds]
                      | _ => []
                      end) t.

(** The tracebacks printed along a trace. *)
Definition tracebacks (t : list Event) : list exn :=
  flat_map (fun ev => match ev with
                      | PrintTraceback e => [e]
                      | _ => []
                      end) t.

(** The round of [w] raises [e] before it has scored anything: the registry
    lookup or the draw of the prompt raises. *)
Definition round_raises (w : World) (e : exn) : Prop :=
  get_queryable_miners w = Raise e \/
  (exists mi, get_queryable_miners w = Ok mi /\ random_prompt w = Raise e).

(** A vote that the ledger client can take: distinct uids, positive
    weights, as many weights as uids, and at least one of them. *)
Definition vote_well_formed (v : list uid * list pyfloat) : Prop :=
  NoDup (fst v) /\
  Forall (fun x => 0 < x) (snd v) /\
  List.length (fst v) = List.length (snd v) /\
  fst v <> [].

(** [n] times the character "/" *)
Fixpoint slashes (n : nat) : string :=
  match n with
  | O => EmptyString
  | S n' => String "/"%char (slashes n')
  end.

(** The sample validator, with the HPS scorer. *)
Definition sample_validator_hps : Validator := {|
  settings := default_settings;
  netuid := 14;
  self_model := HPS;
  self_call_timeout := 30;
  weights_histories := []
|}.

(** ** The miner side ([miner/model.py]) *)

(** [d.update(e)], also the unpacking [**e] inside a dict display: the
    items of [e] are set one after the other. *)
Definition dict_update (K V : Type) (eqb : K -> K -> bool) (d e : dict K V) : dict K V :=
  fold_left (fun acc kv => dict_set eqb acc (fst kv) (snd kv)) e d.

Module Miner.

(** What [CustomAPIImageMiner.__init__] sets, the headers being those of
    its HTTP client. *)
Record CustomAPIImageMiner : Type := {
  self_model : string;
  base_url : string;
  headers : dict string string;
  additional_params : dict string jvalue
}.

(** [CustomAPIImageMiner.__init__] *)
Definition CustomAPIImageMiner_init (api_key base_url model : string)
  (additional_headers : option (dict string string))
  (additional_params : option (dict string jvalue)) : CustomAPIImageMiner :=
  {| self_model := model;
     base_url := rstrip_slash base_url;
     headers :=
       dict_update String.eqb
         [("Authorization", String.append "Bearer " api_key)]
         (match additional_headers with Some h => h | None => [] end);
     additional_params :=
       match additional_params with Some a => a | None => [] end |}.

(** The [params] that [CustomAPIImageMiner.sample] sends. *)
Definition sample_params (self : CustomAPIImageMiner)
  (prompt negative_prompt : string) (steps : Z) (seed : option Z)
  (kwargs : dict string jvalue) : dict string jvalue :=
  let params :=
    dict_update String.eqb
      (dict_update String.eqb
         (dict_update String.eqb
            [("prompt", JString prompt);
             ("negative_prompt", JString negative_prompt);
             ("steps", JNumber (inject_Z steps))]
            (match seed with
             | None => []
             | Some sd => [("seed", JNumber (inject_Z sd))]
             end))
         (additional_params self))
      kwargs in
  match self_model self with
  | EmptyString => params
  | String _ _ => dict_set String.eqb params "model" (JString (self_model self))
  end.

(** The exceptions of [sample]: those of [exn], and the two lookup errors
    of the subscript [[0]]. *)
Inductive sample_exn : Type :=
| Exn (e : exn)
| IndexError (msg : string)
| KeyError (msg : string).

(** Python's [v[0]] on a decoded JSON value *)
Definition py_first (v : jvalue) : jvalue + sample_exn :=
  match v with
  | JArray (x :: _) => inl x
  | JArray [] => inr (IndexError "list index out of range")
  | JString (String c _) => inl (JString (String c EmptyString))
  | JString EmptyString => inr (IndexError "string index out of range")
  | JObject _ => inr (KeyError "0")
  | JNumber _ | JBool _ | JNull => inr (Exn (TypeError "object is not subscriptable"))
  end.

(** [CustomAPIImageMiner.sample]; [post url headers params] is the JSON
    object decoded from the reply to the POST request, or the exception
    raised by the transport, by [raise_for_status] or by the decoding; a
    reply that is not a JSON object makes [sample] raise too and counts
    among them. *)
Definition sample
  (post : string -> dict string string -> dict string jvalue -> result (dict string jvalue))
  (self : CustomAPIImageMiner)
  (prompt negative_prompt : string) (steps : Z) (seed : option Z)
  (kwargs : dict string jvalue) : jvalue + sample_exn :=
  let params := sample_params self prompt negative_prompt steps seed kwargs in
  match post (String.append (base_url self) "/generate") (headers self) params with
  | Raise e => inr (Exn e)
  | Ok reply =>
      match dict_get String.eqb "image" reply with
      | Some v => inl v
      | None =>
          match dict_get String.eqb "images" reply with
          | Some v => py_first v
          | None => inr (Exn (ValueError "Unexpected API response format"))
          end
      end
  end.

End Miner.

(** The record that the round of [w] appends to the history of the
    validator [self], if any: none when the round raises or has no score. *)
Definition round_record_of
  (normalize_score : dict uid pyfloat -> dict uid pyfloat -> dict uid pyfloat)
  (weight_score : dict uid pyfloat -> dict uid pyfloat)
  (w : World) (self : Validator) : list WeightHistory :=
  match get_queryable_miners w, random_prompt w with
  | Ok mi, Ok p =>
      if dict_is_empty (fst (round_scores w self mi p)) then []
      else [round_record normalize_score weight_score w
              (fst (round_scores w self mi p)) (snd (round_scores w self mi p))]
  | _, _ => []
  end.

(** ** A payload that is an image *)

(** A PNG file of one red pixel: signature, IHDR (1 x 1, 8-bit RGB), IDAT
    and IEND chunks with their checksums. *)
Definition png_1x1 : bytes :=
  [
   Byte.x89; Byte.x50; Byte.x4e; Byte.x47; Byte.x0d; Byte.x0a; Byte.x1a; Byte.x0a;
   Byte.x00; Byte.x00; Byte.x00; Byte.x0d; Byte.x49; Byte.x48; Byte.x44; Byte.x52;
   Byte.x00; Byte.x00; Byte.x00; Byte.x01; Byte.x00; Byte.x00; Byte.x00; Byte.x01;
   Byte.x08; Byte.x02; Byte.x00; Byte.x00; Byte.x00; Byte.x90; Byte.x77; Byte.x53;
   Byte.xde; Byte.x00; Byte.x00; Byte.x00; Byte.x0c; Byte.x49; Byte.x44; Byte.x41;
   Byte.x54; Byte.x78; Byte.xda; Byte.x63; Byte.xf8; Byte.xcf; Byte.xc0; Byte.x00;
   Byte.x00; Byte.x03; Byte.x01; Byte.x01; Byte.x00; Byte.xf7; Byte.x03; Byte.x41;
   Byte.x43; Byte.x00; Byte.x00; Byte.x00; Byte.x00; Byte.x49; Byte.x45; Byte.x4e;
   Byte.x44; Byte.xae; Byte.x42; Byte.x60; Byte.x82
  ].

(** [a == b] on [bytes] *)
Fixpoint bytes_eqb (a b : bytes) : bool :=
  match a, b with
  | [], [] => true
  | x :: a', y :: b' => Byte.eqb x y && bytes_eqb a' b'
  | _, _ => false
  end.

(** A scoring endpoint that replies [{"score": score}] for the image
    [png_1x1]; no other payload of these worlds is an image, and opening
    them fails. *)
Definition png_endpoint (score : pyfloat) : Backends := {|
  clip_logits_sum := fun _ _ _ => Raise (RuntimeError "no CLIP model");
  hpsv2_score := fun _ _ => Raise (RuntimeError "no HPS model");
  api_post_json := fun _ _ file _ =>
    if bytes_eqb file png_1x1 then Ok [("score", JNumber score)]
    else Raise (ValueError "cannot identify image file");
  float_of_str := fun _ => None
|}.

(** A round whose only miner, 7, answers the image [png_1x1] in 1 s, the
    endpoint replying [score] for it. *)
Definition sample_world_png (score : pyfloat) : World := {|
  get_queryable_miners := Ok [(7%Z, "m7")];
  random_prompt := Ok "a cat";
  get_miner_generation_with_elapsed := fun _ _ => (Some png_1x1, 1);
  backends := png_endpoint score;
  vote := fun _ _ => Ok VoteAccepted;
  datetime_now := 1700000360;
  time_before_round := 1400;
  time_after_round := 1402
|}.

(** The round of [sample_world], at the time [now]. *)
Definition sample_world_at (now : Z) : World := {|
  get_queryable_miners := get_queryable_miners sample_world;
  random_prompt := random_prompt sample_world;
  get_miner_generation_with_elapsed := get_miner_generation_with_elapsed sample_world;
  backends := sample_backends;
  vote := fun _ _ => Ok VoteAccepted;
  datetime_now := now;
  time_before_round := time_before_round sample_world;
  time_after_round := time_after_round sample_world
|}.

(** * Facts *)

Unset Implicit Arguments.

(** ** Rationals *)

Lemma Qlt_bool_iff (x y : Q) : Qlt_bool x y = true <-> x < y.
Proof.
  unfold Qlt_bool. rewrite negb_true_iff.
  split; intro H.
  - apply Qnot_le_lt. intro L. apply Qle_bool_iff in L. congruence.
  - destruct (Qle_bool y x) eqn:E; [|reflexivity].
    apply Qle_bool_iff in E. exfalso. apply (Qlt_not_le _ _ H E).
Qed.

Lemma Qlt_bool_false_iff (x y : Q) : Qlt_bool x y = false <-> y <= x.
Proof.
  unfold Qlt_bool. rewrite negb_false_iff. apply Qle_bool_iff.
Qed.

Lemma Qsum_nonneg (l : list Q) : Forall (fun v => 0 <= v) l -> 0 <= Qsum l.
Proof.
  induction 1 as [|v l Hv _ IH]; simpl.
  - apply Qle_refl.
  - lra.
Qed.

Lemma Qsum_bounds_each (l : list Q) (c : Q) :
  Forall (fun v => 0 <= v) l -> Qsum l <= c -> Forall (fun v => v <= c) l.
Proof.
  induction 1 as [|v l Hv Hl IH]; simpl; intro S; constructor.
  - pose proof (Qsum_nonneg _ Hl). lra.
  - apply IH. lra.
Qed.

(** ** Dictionaries *)

Section DictFacts.
Variable K : Type.
Variable eqb : K -> K -> bool.
Hypothesis eqb_spec : forall x y, reflect (x = y) (eqb x y).
Variable V : Type.
Implicit Types d : dict K V.

Lemma in_keys_dict_set d k v k' :
  In k' (keys (dict_set eqb d k v)) <-> k' = k \/ In k' (keys d).
Proof using eqb_spec.
  induction d as [|[k0 v0] d IH]; simpl.
  - intuition.
  - destruct (eqb_spec k0 k) as [->|N]; simpl.
    + intuition.
    + rewrite IH. intuition.
Qed.

Lemma dict_set_fresh d k v :
  ~ In k (keys d) -> dict_set eqb d k v = d ++ [(k, v)].
Proof using eqb_spec.
  induction d as [|[k0 v0] d IH]; simpl; intro H; [reflexivity|].
  destruct (eqb_spec k0 k) as [->|N].
  - exfalso. apply H. now left.
  - f_equal. apply IH. intro; apply H. now right.
Qed.

Lemma is_dict_dict_set d k v : is_dict d -> is_dict (dict_set eqb d k v).
Proof using eqb_spec.
  unfold is_dict.
  induction d as [|[k0 v0] d IH]; simpl; intro H.
  - constructor; [intros []|constructor].
  - inversion H as [|? ? Hn Hd]; subst.
    destruct (eqb_spec k0 k) as [->|N]; simpl.
    + now constructor.
    + constructor; [|now apply IH].
      fold (keys (dict_set eqb d k v)). rewrite in_keys_dict_set.
      intros [E|I]; [now apply N|now apply Hn].
Qed.

Lemma dict_comprehension_filter keep d :
  is_dict d ->
  dict_comprehension eqb keep d = filter (fun kv => keep (snd kv)) d.
Proof using eqb_spec.
  unfold dict_comprehension, items, is_dict.
  intro H.
  enough (G : forall acc,
             (forall k, In k (keys acc) -> ~ In k (keys d)) ->
             fold_left (fun acc kv => if keep (snd kv)
                                      then dict_set eqb acc (fst kv) (snd kv) else acc) d acc
             = acc ++ filter (fun kv => keep (snd kv)) d).
  { apply (G []). intros k []. }
  induction d as [|[k v] d IH]; simpl; intros acc Hacc.
  - now rewrite app_nil_r.
  - inversion H as [|? ? Hn Hd]; subst.
    destruct (keep v) eqn:E.
    + rewrite IH; auto.
      * rewrite dict_set_fresh.
        -- now rewrite <- app_assoc.
        -- intro I. apply (Hacc _ I). now left.
      * intros k0 I. apply in_keys_dict_set in I. destruct I as [->|I]; [exact Hn|].
        intro J. apply (Hacc _ I). now right.
    + apply IH; auto. intros k0 I J. apply (Hacc _ I). now right.
Qed.

Lemma is_dict_functional d k (a b : V) :
  is_dict d -> In (k, a) d -> In (k, b) d -> a = b.
Proof.
  unfold is_dict.
  induction d as [|[k0 v0] d IH]; simpl; intros H Ia Ib; [contradiction|].
  inversion H as [|? ? Hn Hd]; subst.
  destruct Ia as [Ea|Ia], Ib as [Eb|Ib].
  - congruence.
  - inversion Ea; subst. exfalso. apply Hn. apply (in_map fst) in Ib. exact Ib.
  - inversion Eb; subst. exfalso. apply Hn. apply (in_map fst) in Ia. exact Ia.
  - now apply IH.
Qed.

End DictFacts.

(** ** The scoring loop *)

Lemma combine_keys_map (A B C : Type) (f : B -> C) (d : list (A * B)) :
  combine (map fst d) (map f (map snd d)) = map (fun kv => (fst kv, f (snd kv))) d.
Proof.
  induction d as [|[k v] d IH]; simpl; [reflexivity|now rewrite IH].
Qed.

Lemma score_loop_is_dict b m p answers sd dd :
  is_dict sd -> is_dict (fst (score_loop b m p answers sd dd)).
Proof.
  revert sd dd.
  induction answers as [|[u [[[|b0 img]|] el]] rest IH]; simpl; intros sd dd H; auto.
  destruct (Qeq_bool _ 0); auto.
  apply IH. apply is_dict_dict_set; [apply Z.eqb_spec|exact H].
Qed.

(** A uid enters the score dictionary only with a payload that is present
    and a score that is not 0. *)
Lemma score_loop_in_keys b m p answers sd dd u :
  In u (keys (fst (score_loop b m p answers sd dd))) ->
  In u (keys sd) \/
  exists img el, In (u, (Some img, el)) answers /\ img <> [] /\
                 Qeq_bool (calculate_score b m img p) 0 = false.
Proof.
  revert sd dd.
  induction answers as [|[u0 [[[|b0 img]|] el]] rest IH]; simpl; intros sd dd H.
  - now left.
  - destruct (IH _ _ H) as [I|(i & e & I & N & S)]; [now left|].
    right. exists i, e. auto.
  - destruct (Qeq_bool (calculate_score b m (b0 :: img) p) 0) eqn:E.
    + destruct (IH _ _ H) as [I|(i & e & I & N & S)]; [now left|].
      right. exists i, e. auto.
    + destruct (IH _ _ H) as [I|(i & e & I & N & S)].
      * apply in_keys_dict_set in I; [|apply Z.eqb_spec].
        destruct I as [->|I]; [|now left].
        right. exists (b0 :: img), el. split; [now left|]. split; [discriminate|exact E].
      * right. exists i, e. auto.
  - destruct (IH _ _ H) as [I|(i & e & I & N & S)]; [now left|].
    right. exists i, e. auto.
Qed.

Lemma score_loop_same_keys b m p answers sd dd :
  keys sd = keys dd ->
  keys (fst (score_loop b m p answers sd dd)) = keys (snd (score_loop b m p answers sd dd)).
Proof.
  revert sd dd.
  induction answers as [|[u [[[|b0 img]|] el]] rest IH]; simpl; intros sd dd H; auto.
  destruct (Qeq_bool _ 0); auto.
  apply IH. clear IH. revert dd H.
  induction sd as [|[k v] sd IHs]; intros [|[k' v'] dd] H; simpl in *; try discriminate; auto.
  inversion H; subst.
  destruct (Z.eqb k' u); simpl; f_equal; auto.
Qed.

(** Every score recorded in the score dictionary is a value of
    [calculate_score] that is not 0. *)
Lemma score_loop_values b m p answers sd dd (P : pyfloat -> Prop) :
  (forall img, Qeq_bool (calculate_score b m img p) 0 = false -> P (calculate_score b m img p)) ->
  Forall P (values sd) ->
  Forall P (values (fst (score_loop b m p answers sd dd))).
Proof.
  intro HP. revert sd dd.
  induction answers as [|[u [[[|b0 img]|] el]] rest IH]; simpl; intros sd dd H; auto.
  destruct (Qeq_bool (calculate_score b m (b0 :: img) p) 0) eqn:E; auto.
  apply IH. clear IH.
  induction sd as [|[k v] sd IHs]; simpl in *.
  - constructor; auto.
  - inversion H; subst. destruct (Z.eqb k u); simpl; constructor; auto.
Qed.

(** ** One round *)

Section RoundFacts.
Variable normalize_score : dict uid pyfloat -> dict uid pyfloat -> dict uid pyfloat.
Variable weight_score : dict uid pyfloat -> dict uid pyfloat.

Local Abbreviation validate_step := (validate_step normalize_score weight_score).
Local Abbreviation loop_iteration := (loop_iteration normalize_score weight_score).
Local Abbreviation validation_loop := (validation_loop normalize_score weight_score).
Local Abbreviation round_record := (round_record normalize_score weight_score).
Local Abbreviation emitted_weights := (emitted_weights normalize_score weight_score).

Lemma validate_step_raise_miners w self e :
  get_queryable_miners w = Raise e ->
  run (validate_step w) self = (Raise e, self, []).
Proof.
  intro H. unfold run, validate_step, bind, get_self, lift. rewrite H. reflexivity.
Qed.

Lemma validate_step_raise_prompt w self mi e :
  get_queryable_miners w = Ok mi ->
  random_prompt w = Raise e ->
  run (validate_step w) self = (Raise e, self, []).
Proof.
  intros H1 H2.
  unfold run, validate_step, bind, get_self, lift, get_validate_input, bind, lift.
  rewrite H1, H2. reflexivity.
Qed.

(** The outcome of a round whose registry lookup and prompt draw return. *)
Lemma validate_step_run w self mi p :
  get_queryable_miners w = Ok mi ->
  random_prompt w = Ok p ->
  run (validate_step w) self =
    let sd := fst (round_scores w self mi p) in
    let dd := snd (round_scores w self mi p) in
    if dict_is_empty sd then (Ok tt, self, [])
    else
      (Ok tt,
       set_weights_histories self
         (deque_append weights_histories_maxlen (weights_histories self)
            (round_record w sd dd)),
       if dict_is_empty (emitted_weights sd dd) then []
       else [VoteCall (keys (emitted_weights sd dd)) (values (emitted_weights sd dd))]).
Proof.
  intros H1 H2.
  unfold run, validate_step, bind, get_self, lift, get_validate_input, bind, lift, ret.
  rewrite H1, H2. cbn [prompt].
  unfold round_scores.
  destruct (score_loop _ _ _ _ _ _) as [sd dd]. cbn [fst snd].
  destruct sd as [|kv sd']; [reflexivity|]. set (sd := kv :: sd').
  unfold weights_histories_append, try_except, c_client_vote, bind, ret.
  cbv zeta.
  change (dict_comprehension Z.eqb (fun v => Qlt_bool 0 v)
            (weight_score (normalize_score sd dd))) with (emitted_weights sd dd).
  fold (round_record w sd dd).
  destruct (emitted_weights sd dd) as [|kw em]; [reflexivity|].
  cbn [dict_is_empty].
  destruct (vote w _ _); reflexivity.
Qed.

(** All the outcomes of a round. *)
Lemma validate_step_inv w self r self' t :
  run (validate_step w) self = (r, self', t) ->
  (exists e, r = Raise e /\ self' = self /\ t = []) \/
  (r = Ok tt /\
   exists mi p,
     get_queryable_miners w = Ok mi /\ random_prompt w = Ok p /\
     let sd := fst (round_scores w self mi p) in
     let dd := snd (round_scores w self mi p) in
     (sd = [] /\ self' = self /\ t = []) \/
     (sd <> [] /\
      self' = set_weights_histories self
                (deque_append weights_histories_maxlen (weights_histories self)
                   (round_record w sd dd)) /\
      t = if dict_is_empty (emitted_weights sd dd) then []
          else [VoteCall (keys (emitted_weights sd dd)) (values (emitted_weights sd dd))])).
Proof.
  destruct (get_queryable_miners w) as [mi|e] eqn:H1.
  2:{ rewrite (validate_step_raise_miners w self e H1). intro E. inversion E; subst.
      left. eauto. }
  destruct (random_prompt w) as [p|e] eqn:H2.
  2:{ rewrite (validate_step_raise_prompt w self mi e H1 H2). intro E. inversion E; subst.
      left. eauto. }
  rewrite (validate_step_run w self mi p H1 H2). cbv zeta.
  destruct (fst (round_scores w self mi p)) as [|kv sd'] eqn:Hsd; cbn [dict_is_empty];
    intro E; inversion E; subst; right; (split; [reflexivity|]);
    exists mi, p; rewrite Hsd; (split; [reflexivity|split; [reflexivity|]]).
  - left. auto.
  - right. split; [discriminate|]. auto.
Qed.

Lemma validate_step_settings w self r self' t :
  run (validate_step w) self = (r, self', t) -> settings self' = settings self.
Proof.
  intro H. apply validate_step_inv in H.
  destruct H as [(e & _ & -> & _)|(_ & mi & p & _ & _ & [(_ & -> & _)|(_ & -> & _)])];
    reflexivity.
Qed.

(** ** The loop *)

Lemma loop_iteration_run w self :
  run (loop_iteration w) self =
    match run (validate_step w) self with
    | (Ok _, self1, t1) =>
        let interval := inject_Z (iteration_interval (settings self)) in
        let elapsed := time_after_round w - time_before_round w in
        (Ok tt, self1,
         t1 ++ (if Qlt_bool elapsed interval then [Sleep (interval - elapsed)] else []))
    | (Raise e, self1, t1) => (Ok tt, self1, t1 ++ [PrintTraceback e])
    end.
Proof.
  unfold run, loop_iteration, try_except, bind, get_self, time_sleep, print_traceback,
    emit, ret.
  destruct (validate_step w self) as [[[[]|e] self1] t1]; cbn [app]; cbv zeta.
  - destruct (Qlt_bool _ _); reflexivity.
  - reflexivity.
Qed.

Lemma loop_iteration_ok w self :
  fst (fst (run (loop_iteration w) self)) = Ok tt.
Proof.
  rewrite loop_iteration_run.
  destruct (run (validate_step w) self) as [[[[]|e] self1] t1]; reflexivity.
Qed.

Lemma validation_loop_cons w ws self :
  run (validation_loop (w :: ws)) self =
    match run (loop_iteration w) self with
    | (_, self1, t1) =>
        match run (validation_loop ws) self1 with
        | (r, self2, t2) => (r, self2, t1 ++ t2)
        end
    end.
Proof.
  pose proof (loop_iteration_ok w self) as H.
  unfold run in *.
  change (validation_loop (w :: ws))
    with (bind (loop_iteration w) (fun _ => validation_loop ws)).
  unfold bind at 1.
  destruct (loop_iteration w self) as [[r self1] t1]. cbn [fst] in H. subst r.
  reflexivity.
Qed.

(** The loop is never ended by an exception. *)
Lemma validation_loop_ok ws self :
  fst (fst (run (validation_loop ws) self)) = Ok tt.
Proof.
  revert self. induction ws as [|w ws IH]; intro self; [reflexivity|].
  rewrite validation_loop_cons.
  destruct (run (loop_iteration w) self) as [[r self1] t1].
  specialize (IH self1).
  destruct (run (validation_loop ws) self1) as [[r2 self2] t2]. exact IH.
Qed.

End RoundFacts.

(** ** The bounded deque *)

Lemma deque_append_length (A : Type) (n : nat) (d : list A) (x : A) :
  (List.length d <= n)%nat -> (List.length (deque_append n d x) <= n)%nat.
Proof.
  intro H. unfold deque_append.
  destruct (Nat.ltb_spec n (List.length (d ++ [x]))) as [L|L]; [|exact L].
  rewrite length_app in L. simpl in L.
  destruct d as [|a d]; simpl in *.
  - lia.
  - rewrite length_app. simpl. lia.
Qed.

Lemma in_deque_append (A : Type) (n : nat) (d : list A) (x y : A) :
  In y (deque_append n d x) -> In y d \/ y = x.
Proof.
  unfold deque_append. intro H.
  assert (I : In y (d ++ [x])).
  { destruct (n <? List.length (d ++ [x]))%nat; [|exact H].
    destruct (d ++ [x]); [contradiction|now right]. }
  apply in_app_or in I. destruct I as [I|[I|[]]]; auto.
Qed.

(** Appending to a deque within its bound keeps the last [n] items of
    what was held and what was appended. *)
Lemma fold_deque_append (A : Type) (n : nat) (rs d : list A) :
  (List.length d <= n)%nat ->
  fold_left (deque_append n) rs d = skipn (List.length (d ++ rs) - n) (d ++ rs).
Proof.
  revert d. induction rs as [|x rs IH]; intros d H.
  - rewrite app_nil_r. replace (List.length d - n)%nat with 0%nat by lia. reflexivity.
  - cbn [fold_left]. rewrite IH by (now apply deque_append_length).
    unfold deque_append.
    destruct (Nat.ltb_spec n (List.length (d ++ [x]))) as [L|L].
    + rewrite length_app in L. simpl in L.
      assert (E : List.length d = n) by lia.
      destruct d as [|a d]; cbn [List.length app tl] in *.
      * subst n. rewrite !skipn_all2 by (cbn [List.length]; lia). reflexivity.
      * rewrite <- app_assoc. cbn [app]. subst n.
        rewrite !length_app. cbn [List.length].
        replace (List.length d + S (List.length rs) - S (List.length d))%nat
          with (List.length rs) by lia.
        replace (S (List.length d + S (List.length rs)) - S (List.length d))%nat
          with (S (List.length rs)) by lia.
        reflexivity.
    + rewrite <- app_assoc. reflexivity.
Qed.

(** ** The instances of the missing functions meet their contracts *)

Lemma normalize_score_ref_contract : normalize_contract normalize_score_ref.
Proof.
  intros sd dd H. unfold normalize_score_ref, is_dict, keys.
  rewrite map_map. cbn [fst]. split; [exact H|apply incl_refl].
Qed.

Lemma Qsum_map_div (l : list Q) (c : Q) :
  Qsum (map (fun x => x / c) l) == Qsum l / c.
Proof.
  induction l as [|x l IH]; simpl.
  - unfold Qdiv. ring.
  - rewrite IH. unfold Qdiv. ring.
Qed.

Lemma Qmax_0_nonneg (x : Q) : 0 <= Qmax 0 x.
Proof. apply Q.le_max_l. Qed.

Lemma keys_map_value (K V W : Type) (f : K * V -> W) (d : dict K V) :
  keys (map (fun kv => (fst kv, f kv)) d) = keys d.
Proof. unfold keys. rewrite map_map. reflexivity. Qed.

Lemma values_map_value (K V W : Type) (f : V -> W) (d : dict K V) :
  values (map (fun kv => (fst kv, f (snd kv))) d) = map f (values d).
Proof. unfold values. rewrite !map_map. reflexivity. Qed.

Lemma weight_score_ref_contract : weight_contract weight_score_ref.
Proof.
  intros n H. unfold weight_score_ref.
  set (clamped := map (fun kv => (fst kv, Qmax 0 (snd kv))) n).
  set (total := Qsum (values clamped)).
  assert (Hpos : Forall (fun v => 0 <= v) (values clamped)).
  { unfold clamped. rewrite (values_map_value _ _ _ (fun v => Qmax 0 v)).
    apply Forall_forall. intros v I. apply in_map_iff in I.
    destruct I as (kv & <- & _). apply Qmax_0_nonneg. }
  assert (Htot : 0 <= total) by (apply Qsum_nonneg; exact Hpos).
  assert (Hle : Forall (fun v => v <= total) (values clamped)).
  { apply Qsum_bounds_each; [exact Hpos|apply Qle_refl]. }
  unfold is_dict.
  rewrite (keys_map_value _ _ _ (fun kv => if Qeq_bool total 0 then 0 else snd kv / total)).
  rewrite (values_map_value _ _ _ (fun v => if Qeq_bool total 0 then 0 else v / total)).
  assert (Hk : keys clamped = keys n) by (unfold clamped; apply (keys_map_value _ _ _ (fun kv => Qmax 0 (snd kv)))).
  rewrite Hk.
  split; [exact H|]. split; [apply incl_refl|].
  destruct (Qeq_bool total 0) eqn:E.
  - split.
    + apply Forall_forall. intros v I. apply in_map_iff in I.
      destruct I as (x & <- & _). lra.
    + clear. induction (values clamped) as [|x l IH]; simpl; lra.
  - apply Qeq_bool_neq in E.
    assert (Hgt : 0 < total) by (apply Qle_lteq in Htot; destruct Htot as [L|L];
                                 [exact L|exfalso; apply E; symmetry; exact L]).
    split.
    + apply Forall_forall. intros v I. apply in_map_iff in I.
      destruct I as (x & <- & I).
      rewrite Forall_forall in Hpos, Hle.
      specialize (Hpos _ I). specialize (Hle _ I). cbv beta in Hpos, Hle.
      split.
      * apply Qle_shift_div_l; [exact Hgt|]. lra.
      * apply Qle_shift_div_r; [exact Hgt|]. lra.
    + rewrite Qsum_map_div. fold total.
      apply Qle_shift_div_r; [exact Hgt|]. lra.
Qed.

(** ** Weights of a round, under the contracts of the missing functions *)

Lemma Qsum_values_filter_le (f : uid * Q -> bool) (d : dict uid Q) :
  Forall (fun v => 0 <= v) (values d) ->
  Qsum (values (filter f d)) <= Qsum (values d).
Proof.
  induction d as [|[k v] d IH]; simpl; intro H.
  - apply Qle_refl.
  - inversion H as [|? ? Hv Hd]; subst. specialize (IH Hd).
    destruct (f (k, v)); simpl; lra.
Qed.

Lemma in_zip5_uid (B C D E : Type) (a : list uid) (b : list B) (c : list C)
  (d : list D) (e : list E) (x : uid * B * C * D * E) :
  In x (zip5 a b c d e) -> In (fst (fst (fst (fst x)))) a.
Proof.
  unfold zip5. intro H. apply in_map_iff in H.
  destruct H as ([u [y [z [s v]]]] & <- & I). cbn [fst].
  apply in_combine_l in I. exact I.
Qed.

Lemma round_scores_is_dict w self mi p :
  is_dict (fst (round_scores w self mi p)).
Proof.
  unfold round_scores. apply score_loop_is_dict. constructor.
Qed.

Section ContractFacts.
Variable normalize_score : dict uid pyfloat -> dict uid pyfloat -> dict uid pyfloat.
Variable weight_score : dict uid pyfloat -> dict uid pyfloat.
Hypothesis normalize_ok : normalize_contract normalize_score.
Hypothesis weight_ok : weight_contract weight_score.

Lemma weighted_scores_contract sd dd :
  is_dict sd ->
  is_dict (weight_score (normalize_score sd dd)) /\
  incl (keys (weight_score (normalize_score sd dd))) (keys sd) /\
  Forall (fun v => 0 <= v /\ v <= 1) (values (weight_score (normalize_score sd dd))) /\
  Qsum (values (weight_score (normalize_score sd dd))) <= 1.
Proof using normalize_ok weight_ok.
  intro H.
  destruct (normalize_ok sd dd H) as [Hn Hi].
  destruct (weight_ok _ Hn) as (Hw & Hj & Hv & Hs).
  split; [exact Hw|]. split; [|split; assumption].
  intros u I. apply Hi, Hj, I.
Qed.

Lemma emitted_weights_filter sd dd :
  is_dict sd ->
  emitted_weights normalize_score weight_score sd dd =
  filter (fun kv => Qlt_bool 0 (snd kv)) (weight_score (normalize_score sd dd)).
Proof using normalize_ok weight_ok.
  intro H. unfold emitted_weights.
  apply dict_comprehension_filter; [apply Z.eqb_spec|].
  apply (weighted_scores_contract sd dd H).
Qed.

Lemma emitted_weights_keys sd dd :
  is_dict sd ->
  incl (keys (emitted_weights normalize_score weight_score sd dd)) (keys sd).
Proof using normalize_ok weight_ok.
  intros H u I. rewrite (emitted_weights_filter sd dd H) in I.
  destruct (weighted_scores_contract sd dd H) as (_ & Hi & _).
  apply Hi. unfold keys in *. apply in_map_iff in I.
  destruct I as (kv & <- & I). apply filter_In in I. apply in_map, I.
Qed.

Lemma emitted_weights_values sd dd :
  is_dict sd ->
  Forall (fun v => 0 < v /\ v <= 1)
    (values (emitted_weights normalize_score weight_score sd dd)) /\
  Qsum (values (emitted_weights normalize_score weight_score sd dd)) <= 1.
Proof using normalize_ok weight_ok.
  intro H. rewrite (emitted_weights_filter sd dd H).
  destruct (weighted_scores_contract sd dd H) as (_ & _ & Hv & Hs).
  split.
  - apply Forall_forall. intros v I. unfold values in I. apply in_map_iff in I.
    destruct I as (kv & <- & I). apply filter_In in I. destruct I as [I P].
    apply Qlt_bool_iff in P. split; [exact P|].
    rewrite Forall_forall in Hv. apply (Hv (snd kv)). apply in_map, I.
  - eapply Qle_trans; [|exact Hs].
    apply Qsum_values_filter_le.
    eapply Forall_impl; [|exact Hv]. intros v [L _]. exact L.
Qed.

Lemma round_record_uids w sd dd :
  is_dict sd ->
  incl (map tuple_uid (data (round_record normalize_score weight_score w sd dd))) (keys sd).
Proof using normalize_ok weight_ok.
  intros H u I. apply in_map_iff in I. destruct I as (tup & <- & I).
  unfold round_record in I. cbn [data] in I.
  apply in_zip5_uid in I.
  destruct (weighted_scores_contract sd dd H) as (_ & Hi & _).
  apply Hi. destruct tup as [[[[u0 a] b] c] d]. exact I.
Qed.

End ContractFacts.

(** The uids of the record and of the vote of a round are uids of its score
    dictionary. *)
Lemma round_uids_scored
  (normalize_score : dict uid pyfloat -> dict uid pyfloat -> dict uid pyfloat)
  (weight_score : dict uid pyfloat -> dict uid pyfloat)
  (normalize_ok : normalize_contract normalize_score)
  (weight_ok : weight_contract weight_score)
  (w : World) (self : Validator) (mi : dict uid miner_info) (p : string)
  (r : result unit) (self' : Validator) (t : list Event) :
  get_queryable_miners w = Ok mi ->
  random_prompt w = Ok p ->
  run (validate_step normalize_score weight_score w) self = (r, self', t) ->
  r = Ok tt /\
  (forall rec, In rec (weights_histories self') ->
     In rec (weights_histories self) \/
     incl (map tuple_uid (data rec)) (keys (fst (round_scores w self mi p)))) /\
  (forall uids weights, In (VoteCall uids weights) t ->
     incl uids (keys (fst (round_scores w self mi p)))).
Proof.
  intros H1 H2 H.
  rewrite (validate_step_run normalize_score weight_score w self mi p H1 H2) in H.
  cbv zeta in H.
  pose proof (round_scores_is_dict w self mi p) as Hd.
  set (sd := fst (round_scores w self mi p)) in *.
  set (dd := snd (round_scores w self mi p)) in *.
  destruct (dict_is_empty sd); inversion H; subst; clear H.
  - split; [reflexivity|]. split; [intros rec I; now left|intros uids ws []].
  - split; [reflexivity|]. split.
    + intros rec I. cbn [weights_histories set_weights_histories] in I.
      apply in_deque_append in I. destruct I as [I| ->]; [now left|right].
      apply round_record_uids; assumption.
    + intros uids ws I.
      destruct (dict_is_empty (emitted_weights normalize_score weight_score sd dd));
        [destruct I|].
      destruct I as [I|[]]. inversion I; subst.
      apply emitted_weights_keys; assumption.
Qed.

(** * The claims *)

(** C1. Every vote that a round submits carries weights that lie in [0,1]
    and sum to at most 1; the entries whose weight is not positive were
    dropped before, so no negative weight and no zero weight is submitted,
    and the uids and the weights are aligned. The bounds on the values of
    [weight_score] are those of its contract. *)
Theorem emitted_weights_bounded
  (normalize_score : dict uid pyfloat -> dict uid pyfloat -> dict uid pyfloat)
  (weight_score : dict uid pyfloat -> dict uid pyfloat)
  (normalize_ok : normalize_contract normalize_score)
  (weight_ok : weight_contract weight_score)
  (w : World) (self : Validator)
  (r : result unit) (self' : Validator) (t : list Event)
  (uids : list uid) (weights : list pyfloat) :
  run (validate_step normalize_score weight_score w) self = (r, self', t) ->
  In (VoteCall uids weights) t ->
  Forall (fun v => 0 <= v /\ v <= 1) weights /\
  Qsum weights <= 1 /\
  Forall (fun v => 0 < v) weights /\
  List.length uids = List.length weights.
Proof.
  intros H I.
  apply validate_step_inv in H.
  destruct H as [(e & _ & _ & ->)|(_ & mi & p & _ & _ & H)]; [destruct I|].
  cbv zeta in H.
  pose proof (round_scores_is_dict w self mi p) as Hd.
  set (sd := fst (round_scores w self mi p)) in *.
  set (dd := snd (round_scores w self mi p)) in *.
  destruct H as [(_ & _ & ->)|(_ & _ & ->)]; [destruct I|].
  destruct (dict_is_empty (emitted_weights normalize_score weight_score sd dd));
    [destruct I|].
  destruct I as [I|[]]. inversion I; subst. clear I.
  destruct (emitted_weights_values normalize_score weight_score normalize_ok weight_ok
              sd dd Hd) as [Hv Hs].
  split; [|split; [exact Hs|split]].
  - eapply Forall_impl; [|exact Hv]. intros v [L U]. split; [apply Qlt_le_weak, L|exact U].
  - eapply Forall_impl; [|exact Hv]. intros v [L _]. exact L.
  - unfold keys, values. now rewrite !length_map.
Qed.

Lemma emitted_weights_bounded_witness :
  Forall (fun v => 0 <= v /\ v <= 1) [3072000 # 5120000; 3072000 # 7680000] /\
  Qsum [3072000 # 5120000; 3072000 # 7680000] <= 1 /\
  Forall (fun v => 0 < v) [3072000 # 5120000; 3072000 # 7680000] /\
  List.length [1%Z; 2%Z] = List.length [3072000 # 5120000; 3072000 # 7680000].
Proof.
  apply (emitted_weights_bounded normalize_score_ref weight_score_ref
           normalize_score_ref_contract weight_score_ref_contract
           sample_world sample_validator (Ok tt)
           (snd (fst (run (validate_step normalize_score_ref weight_score_ref sample_world)
                        sample_validator)))
           [VoteCall [1%Z; 2%Z] [3072000 # 5120000; 3072000 # 7680000]]).
  - vm_compute. reflexivity.
  - left. reflexivity.
Defined.

(** C2. Every uid of the record that a round appends to the history, and
    every uid of the vote that it submits, is a uid of the score dictionary
    of that round. That [normalize_score] and [weight_score] add no uid is
    their contract. *)
Theorem weights_only_for_scored_uids
  (normalize_score : dict uid pyfloat -> dict uid pyfloat -> dict uid pyfloat)
  (weight_score : dict uid pyfloat -> dict uid pyfloat)
  (normalize_ok : normalize_contract normalize_score)
  (weight_ok : weight_contract weight_score)
  (w : World) (self : Validator) (mi : dict uid miner_info) (p : string)
  (r : result unit) (self' : Validator) (t : list Event) :
  get_queryable_miners w = Ok mi ->
  random_prompt w = Ok p ->
  run (validate_step normalize_score weight_score w) self = (r, self', t) ->
  (forall rec, In rec (weights_histories self') ->
     In rec (weights_histories self) \/
     forall tup, In tup (data rec) ->
       In (tuple_uid tup) (keys (fst (round_scores w self mi p)))) /\
  (forall uids weights, In (VoteCall uids weights) t ->
     forall u, In u uids -> In u (keys (fst (round_scores w self mi p)))).
Proof.
  intros H1 H2 H.
  destruct (round_uids_scored normalize_score weight_score normalize_ok weight_ok
              w self mi p r self' t H1 H2 H) as (_ & Hrec & Hvote).
  split.
  - intros rec I. destruct (Hrec rec I) as [J|J]; [now left|right].
    intros tup K. apply J. apply in_map, K.
  - intros uids weights I u J. exact (Hvote uids weights I u J).
Qed.

Lemma weights_only_for_scored_uids_witness :
  let out := run (validate_step normalize_score_ref weight_score_ref sample_world)
               sample_validator in
  (forall rec, In rec (weights_histories (snd (fst out))) ->
     In rec (weights_histories sample_validator) \/
     forall tup, In tup (data rec) ->
       In (tuple_uid tup)
          (keys (fst (round_scores sample_world sample_validator sample_miners "a cat")))) /\
  (forall uids weights, In (VoteCall uids weights) (snd out) ->
     forall u, In u uids ->
       In u (keys (fst (round_scores sample_world sample_validator sample_miners "a cat")))).
Proof.
  intro out.
  apply (weights_only_for_scored_uids normalize_score_ref weight_score_ref
           normalize_score_ref_contract weight_score_ref_contract
           sample_world sample_validator sample_miners "a cat"
           (Ok tt) (snd (fst out)) (snd out)).
  - reflexivity.
  - reflexivity.
  - vm_compute. reflexivity.
Defined.

(** The score dictionary of a round holds no uid whose payload is absent or
    empty, or whose score is 0. *)
Lemma excluded_uid_not_scored (w : World) (self : Validator)
  (mi : dict uid miner_info) (p : string) (u : uid) (info : miner_info) :
  is_dict mi ->
  In (u, info) mi ->
  (bytes_truthy
     (fst (get_miner_generation_with_elapsed w info {| prompt := p; steps := 4 |})) = false \/
   exists img,
     fst (get_miner_generation_with_elapsed w info {| prompt := p; steps := 4 |}) = Some img /\
     calculate_score (backends w) (self_model self) img p == 0) ->
  ~ In u (keys (fst (round_scores w self mi p))).
Proof.
  intros Hd Hin Hex I.
  unfold round_scores in I.
  apply score_loop_in_keys in I. destruct I as [[]|(img & el & I & Hne & Hs)].
  unfold keys, values in I. rewrite combine_keys_map in I.
  apply in_map_iff in I. destruct I as ([u' info'] & E & I).
  cbn [fst snd] in E. inversion E as [[Eu Eg]]. subst u'.
  assert (info' = info) by (eapply is_dict_functional; eassumption). subst info'.
  rewrite Eg in Hex. cbn [fst] in Hex.
  destruct Hex as [Hf|(img' & Ei & Hz)].
  - destruct img; [now apply Hne|discriminate].
  - inversion Ei; subst img'. apply Qeq_bool_neq in Hs. now apply Hs.
Qed.

(** C3. A peer whose payload is absent (or empty), whose scorer back end
    raises, or whose score is 0 is in neither the score dictionary of the
    round, nor the record that the round appends, nor the vote; and the
    round returns normally. That [normalize_score] and [weight_score] add no
    uid is their contract. *)
Theorem excluded_peers_in_no_score_no_weight_no_vote
  (normalize_score : dict uid pyfloat -> dict uid pyfloat -> dict uid pyfloat)
  (weight_score : dict uid pyfloat -> dict uid pyfloat)
  (normalize_ok : normalize_contract normalize_score)
  (weight_ok : weight_contract weight_score)
  (w : World) (self : Validator) (mi : dict uid miner_info) (p : string)
  (u : uid) (info : miner_info)
  (r : result unit) (self' : Validator) (t : list Event) :
  get_queryable_miners w = Ok mi ->
  random_prompt w = Ok p ->
  is_dict mi ->
  In (u, info) mi ->
  (bytes_truthy
     (fst (get_miner_generation_with_elapsed w info {| prompt := p; steps := 4 |})) = false \/
   exists img,
     fst (get_miner_generation_with_elapsed w info {| prompt := p; steps := 4 |}) = Some img /\
     ((exists e, get_similarity (backends w) (self_model self) img p = Raise e) \/
      (exists q, get_similarity (backends w) (self_model self) img p = Ok q /\ q == 0))) ->
  run (validate_step normalize_score weight_score w) self = (r, self', t) ->
  r = Ok tt /\
  ~ In u (keys (fst (round_scores w self mi p))) /\
  (forall rec, In rec (weights_histories self') ->
     In rec (weights_histories self) \/ ~ In u (map tuple_uid (data rec))) /\
  (forall uids weights, In (VoteCall uids weights) t -> ~ In u uids).
Proof.
  intros H1 H2 Hd Hin Hex H.
  assert (Hn : ~ In u (keys (fst (round_scores w self mi p)))).
  { apply (excluded_uid_not_scored w self mi p u info Hd Hin).
    destruct Hex as [Hf|(img & Ei & Hs)]; [now left|right].
    exists img. split; [exact Ei|]. unfold calculate_score.
    destruct Hs as [(e & ->)|(q & -> & Hq)]; [reflexivity|exact Hq]. }
  destruct (round_uids_scored normalize_score weight_score normalize_ok weight_ok
              w self mi p r self' t H1 H2 H) as (Hr & Hrec & Hvote).
  split; [exact Hr|]. split; [exact Hn|]. split.
  - intros rec I. destruct (Hrec rec I) as [J|J]; [now left|right].
    intro K. apply Hn. apply J, K.
  - intros uids weights I K. apply Hn. exact (Hvote uids weights I u K).
Qed.

Lemma sample_miners_is_dict : is_dict sample_miners.
Proof.
  unfold is_dict, sample_miners, keys. cbn [map fst].
  repeat (constructor; [cbn [In]; lia|]). constructor.
Qed.

Lemma excluded_peers_in_no_score_no_weight_no_vote_witness :
  let out := run (validate_step normalize_score_ref weight_score_ref sample_world)
               sample_validator in
  fst (fst out) = Ok tt /\
  ~ In 5%Z (keys (fst (round_scores sample_world sample_validator sample_miners "a cat"))) /\
  (forall rec, In rec (weights_histories (snd (fst out))) ->
     In rec (weights_histories sample_validator) \/ ~ In 5%Z (map tuple_uid (data rec))) /\
  (forall uids weights, In (VoteCall uids weights) (snd out) -> ~ In 5%Z uids).
Proof.
  intro out.
  apply (excluded_peers_in_no_score_no_weight_no_vote normalize_score_ref weight_score_ref
           normalize_score_ref_contract weight_score_ref_contract
           sample_world sample_validator sample_miners "a cat" 5%Z "m5"
           (fst (fst out)) (snd (fst out)) (snd out)).
  - reflexivity.
  - reflexivity.
  - exact sample_miners_is_dict.
  - cbn [sample_miners In]. tauto.
  - right. exists [Byte.xff]. split; [reflexivity|].
    left. exists (HTTPError "503 Service Unavailable"). reflexivity.
  - vm_compute. reflexivity.
Defined.

(** When every miner times out, no score entry survives. *)
Lemma all_absent_no_scores (w : World) (self : Validator)
  (mi : dict uid miner_info) (p : string) :
  (forall info, fst (get_miner_generation_with_elapsed w info {| prompt := p; steps := 4 |})
                = None) ->
  fst (round_scores w self mi p) = [].
Proof.
  intro H. unfold round_scores, keys, values. rewrite combine_keys_map.
  induction mi as [|[u info] mi IH]; [reflexivity|].
  cbn [map fst snd score_loop].
  specialize (H info).
  destruct (get_miner_generation_with_elapsed w info _) as [ans el].
  cbn [fst] in H. subst ans. exact IH.
Qed.

(** C4. A round in which no score entry survives returns normally, calls
    nothing outside (no vote is submitted) and leaves the validator as it
    was: no record, hence no weight entry, is produced. *)
Theorem empty_score_set_no_vote
  (normalize_score : dict uid pyfloat -> dict uid pyfloat -> dict uid pyfloat)
  (weight_score : dict uid pyfloat -> dict uid pyfloat)
  (w : World) (self : Validator) (mi : dict uid miner_info) (p : string) :
  get_queryable_miners w = Ok mi ->
  random_prompt w = Ok p ->
  fst (round_scores w self mi p) = [] ->
  run (validate_step normalize_score weight_score w) self = (Ok tt, self, []).
Proof.
  intros H1 H2 He.
  rewrite (validate_step_run normalize_score weight_score w self mi p H1 H2).
  cbv zeta. rewrite He. reflexivity.
Qed.

Lemma empty_score_set_no_vote_witness :
  run (validate_step normalize_score_ref weight_score_ref sample_world_timeouts)
    sample_validator = (Ok tt, sample_validator, []).
Proof.
  apply (empty_score_set_no_vote normalize_score_ref weight_score_ref
           sample_world_timeouts sample_validator sample_miners "a cat").
  - reflexivity.
  - reflexivity.
  - vm_compute. reflexivity.
Defined.

Lemma in_dict_set (K V : Type) (eqb : K -> K -> bool)
  (eqb_spec : forall x y, reflect (x = y) (eqb x y))
  (d : dict K V) (k : K) (v : V) (k' : K) (v' : V) :
  In (k', v') (dict_set eqb d k v) -> In (k', v') d \/ (k' = k /\ v' = v).
Proof.
  induction d as [|[k0 v0] d IH]; cbn.
  - intros [E|[]]. inversion E. now right.
  - destruct (eqb_spec k0 k) as [->|N]; cbn.
    + intros [E|I]; [inversion E; now right|left; now right].
    + intros [E|I]; [left; now left|].
      destruct (IH I) as [J|J]; [left; now right|now right].
Qed.

(** Every item of the score dictionary is the uid of an answer with the
    value of [calculate_score] on its payload. *)
Lemma score_loop_entries b m p answers sd dd u s :
  In (u, s) (fst (score_loop b m p answers sd dd)) ->
  In (u, s) sd \/
  exists img el, In (u, (Some img, el)) answers /\ s = calculate_score b m img p.
Proof.
  revert sd dd.
  induction answers as [|[u0 [[[|b0 img]|] el]] rest IH]; cbn [score_loop fst];
    intros sd dd H.
  - now left.
  - destruct (IH _ _ H) as [I|(i & e & I & S)]; [now left|].
    right. exists i, e. split; [now right|exact S].
  - destruct (Qeq_bool (calculate_score b m (b0 :: img) p) 0).
    + destruct (IH _ _ H) as [I|(i & e & I & S)]; [now left|].
      right. exists i, e. split; [now right|exact S].
    + destruct (IH _ _ H) as [I|(i & e & I & S)].
      * apply (in_dict_set _ _ _ Z.eqb_spec) in I. destruct I as [I|[-> ->]]; [now left|].
        right. exists (b0 :: img), el. split; [now left|reflexivity].
      * right. exists i, e. split; [now right|exact S].
  - destruct (IH _ _ H) as [I|(i & e & I & S)]; [now left|].
    right. exists i, e. split; [now right|exact S].
Qed.

Lemma round_scores_entries (w : World) (self : Validator)
  (mi : dict uid miner_info) (p : string) (u : uid) (s : pyfloat) :
  In (u, s) (fst (round_scores w self mi p)) ->
  exists info payload,
    In (u, info) mi /\
    fst (miner_answer w p info) = Some payload /\
    s = calculate_score (backends w) (self_model self) payload p.
Proof.
  intro I. unfold round_scores in I. apply score_loop_entries in I.
  destruct I as [[]|(payload & el & I & S)].
  unfold keys, values in I. rewrite combine_keys_map in I.
  apply in_map_iff in I. destruct I as ([u' info] & E & I).
  cbn [fst snd] in E. inversion E as [[Eu Eg]]. subst u'.
  exists info, payload. split; [exact I|]. split; [|exact S].
  unfold miner_answer. rewrite Eg. reflexivity.
Qed.

(** C5, as the code has it. On every payload [calculate_score] returns the
    value of the back end unchanged, negative or not, and 0 when the back
    end raises: the score of a payload is at least 0 exactly when the back
    end, on that payload, raises or returns a value that is at least 0. And
    every raw score of the score dictionary of a round is the value of
    [calculate_score] on the payload that a miner of the round sent. *)
Theorem calculate_score_passes_backend_value
  (w : World) (self : Validator) (mi : dict uid miner_info) (p : string) (img : bytes) :
  (forall q, get_similarity (backends w) (self_model self) img p = Ok q ->
     calculate_score (backends w) (self_model self) img p = q) /\
  (forall e, get_similarity (backends w) (self_model self) img p = Raise e ->
     calculate_score (backends w) (self_model self) img p = 0) /\
  (0 <= calculate_score (backends w) (self_model self) img p <->
   forall q, get_similarity (backends w) (self_model self) img p = Ok q -> 0 <= q) /\
  (forall u s, In (u, s) (fst (round_scores w self mi p)) ->
     exists info payload,
       In (u, info) mi /\
       fst (miner_answer w p info) = Some payload /\
       s = calculate_score (backends w) (self_model self) payload p).
Proof.
  unfold calculate_score at 1 2 3.
  destruct (get_similarity (backends w) (self_model self) img p) as [q0|e0].
  - split; [intros q H; inversion H; reflexivity|].
    split; [intros e H; discriminate|]. split.
    + split; [intros L q H; inversion H; subst; exact L|intro H; apply H; reflexivity].
    + intros u s I. apply (round_scores_entries w self mi p u s I).
  - split; [intros q H; discriminate|].
    split; [intros e H; reflexivity|]. split.
    + split; [intros _ q H; discriminate|intros _; apply Qle_refl].
    + intros u s I. apply (round_scores_entries w self mi p u s I).
Qed.

Lemma calculate_score_passes_backend_value_witness :
  calculate_score (png_endpoint (3 # 4)) (self_model sample_validator) png_1x1 "a cat"
    = 3 # 4 /\
  0 <= calculate_score (png_endpoint (3 # 4)) (self_model sample_validator) png_1x1 "a cat" /\
  exists info payload,
    In (7%Z, info) [(7%Z, "m7")] /\
    fst (miner_answer (sample_world_png (3 # 4)) "a cat" info) = Some payload /\
    3 # 4 = calculate_score (png_endpoint (3 # 4)) (self_model sample_validator)
              payload "a cat".
Proof.
  destruct (calculate_score_passes_backend_value (sample_world_png (3 # 4))
              sample_validator [(7%Z, "m7")] "a cat" png_1x1) as (H1 & _ & H3 & H4).
  split; [|split].
  - apply H1. vm_compute. reflexivity.
  - apply H3. intros q H. vm_compute in H. inversion H. subst q. vm_compute. discriminate.
  - apply (H4 7%Z). vm_compute. left. reflexivity.
Defined.

(** C5, refuted as stated: the payload is an image, the endpoint replies
    [{"score": -14}], the remote back end passes the number on,
    [calculate_score] returns it, and the round records it as a raw
    score. *)
Lemma scorer_returns_negative_score :
  get_similarity (png_endpoint (-14 # 1)) (self_model sample_validator) png_1x1 "a cat"
    = Ok (-14 # 1) /\
  ~ 0 <= calculate_score (png_endpoint (-14 # 1)) (self_model sample_validator)
           png_1x1 "a cat" /\
  fst (round_scores (sample_world_png (-14 # 1)) sample_validator [(7%Z, "m7")] "a cat")
    = [(7%Z, -14 # 1)].
Proof.
  split; [vm_compute; reflexivity|]. split; [|vm_compute; reflexivity].
  vm_compute. intro H. apply H. reflexivity.
Qed.

(** ** The history along the loop *)

Lemma validate_step_history_bound
  (normalize_score : dict uid pyfloat -> dict uid pyfloat -> dict uid pyfloat)
  (weight_score : dict uid pyfloat -> dict uid pyfloat)
  (w : World) (self : Validator) :
  (List.length (weights_histories self) <= weights_histories_maxlen)%nat ->
  (List.length (weights_histories
     (snd (fst (run (validate_step normalize_score weight_score w) self))))
   <= weights_histories_maxlen)%nat.
Proof.
  intro H.
  destruct (run (validate_step normalize_score weight_score w) self) as [[r self'] t] eqn:E.
  apply validate_step_inv in E. cbn [fst snd].
  destruct E as [(e & _ & -> & _)|(_ & mi & p & _ & _ & [(_ & -> & _)|(_ & -> & _)])];
    try exact H.
  cbn [weights_histories set_weights_histories].
  apply deque_append_length, H.
Qed.

Lemma loop_iteration_state
  (normalize_score : dict uid pyfloat -> dict uid pyfloat -> dict uid pyfloat)
  (weight_score : dict uid pyfloat -> dict uid pyfloat)
  (w : World) (self : Validator) :
  snd (fst (run (loop_iteration normalize_score weight_score w) self)) =
  snd (fst (run (validate_step normalize_score weight_score w) self)).
Proof.
  rewrite loop_iteration_run.
  destruct (run (validate_step normalize_score weight_score w) self) as [[[[]|e] self1] t1];
    reflexivity.
Qed.

Lemma validation_loop_history_bound
  (normalize_score : dict uid pyfloat -> dict uid pyfloat -> dict uid pyfloat)
  (weight_score : dict uid pyfloat -> dict uid pyfloat)
  (ws : list World) (self : Validator) :
  (List.length (weights_histories self) <= weights_histories_maxlen)%nat ->
  (List.length (weights_histories
     (snd (fst (run (validation_loop normalize_score weight_score ws) self))))
   <= weights_histories_maxlen)%nat.
Proof.
  revert self. induction ws as [|w ws IH]; intros self H; [exact H|].
  rewrite validation_loop_cons.
  pose proof (loop_iteration_state normalize_score weight_score w self) as Es.
  pose proof (validate_step_history_bound normalize_score weight_score w self H) as Hb.
  rewrite <- Es in Hb.
  destruct (run (loop_iteration normalize_score weight_score w) self) as [[r1 self1] t1].
  cbn [fst snd] in Hb. specialize (IH self1 Hb).
  destruct (run (validation_loop normalize_score weight_score ws) self1) as [[r2 self2] t2].
  exact IH.
Qed.

Lemma Validator_init_history (get_netuid : bool -> result Z)
  (settings0 : option ValidatorSettings) (self : Validator) :
  Validator_init get_netuid settings0 = Ok self -> weights_histories self = [].
Proof.
  unfold Validator_init. intro H.
  destruct settings0 as [s|]; [|discriminate].
  destruct (get_netuid _); [|discriminate].
  destruct (String.eqb _ "clip").
  - inversion H. reflexivity.
  - destruct (String.eqb _ "api").
    + destruct (negb _); [discriminate|]. inversion H. reflexivity.
    + inversion H. reflexivity.
Qed.

(** ** Sleeping *)

Lemma slept_app (t1 t2 : list Event) : slept (t1 ++ t2) == slept t1 + slept t2.
Proof.
  induction t1 as [|[uids ws|s|e] t1 IH]; cbn [app slept]; try rewrite IH; ring.
Qed.

Lemma validate_step_slept
  (normalize_score : dict uid pyfloat -> dict uid pyfloat -> dict uid pyfloat)
  (weight_score : dict uid pyfloat -> dict uid pyfloat)
  (w : World) (self : Validator) (r : result unit) (self' : Validator) (t : list Event) :
  run (validate_step normalize_score weight_score w) self = (r, self', t) ->
  slept t == 0.
Proof.
  intro H. apply validate_step_inv in H.
  destruct H as [(e & _ & _ & ->)|(_ & mi & p & _ & _ & [(_ & _ & ->)|(_ & _ & ->)])];
    try reflexivity.
  destruct (dict_is_empty _); reflexivity.
Qed.

(** C7, as the code has it. After a round that returned, having lasted
    [d] by the two readings of the clock, the turn of the loop sleeps
    [interval - d] when [d < interval] and does not sleep when
    [interval <= d]: in all, it sleeps [max(0, interval - d)]. After a round
    that an exception ended, the turn prints the traceback and does not
    sleep. In both cases the loop goes on with the next turn right after,
    one round per turn. *)
Theorem scheduler_sleeps_remaining_interval
  (normalize_score : dict uid pyfloat -> dict uid pyfloat -> dict uid pyfloat)
  (weight_score : dict uid pyfloat -> dict uid pyfloat)
  (w : World) (ws : list World) (self : Validator)
  (r : result unit) (self1 : Validator) (t1 : list Event) :
  run (validate_step normalize_score weight_score w) self = (r, self1, t1) ->
  let interval := inject_Z (iteration_interval (settings self)) in
  let d := time_after_round w - time_before_round w in
  exists tail,
    run (loop_iteration normalize_score weight_score w) self = (Ok tt, self1, t1 ++ tail) /\
    (r = Ok tt -> d < interval -> tail = [Sleep (interval - d)]) /\
    (r = Ok tt -> interval <= d -> tail = []) /\
    (r = Ok tt -> slept (t1 ++ tail) == Qmax 0 (interval - d)) /\
    (forall e, r = Raise e -> tail = [PrintTraceback e] /\ slept (t1 ++ tail) == 0) /\
    run (validation_loop normalize_score weight_score (w :: ws)) self =
      (let '(r2, self2, t2) := run (validation_loop normalize_score weight_score ws) self1 in
       (r2, self2, (t1 ++ tail) ++ t2)).
Proof.
  intros H interval d.
  pose proof (validate_step_slept normalize_score weight_score w self _ _ _ H) as Hs.
  pose proof (loop_iteration_run normalize_score weight_score w self) as Hrun.
  rewrite H in Hrun. destruct r as [[]|e].
  - cbv zeta in Hrun. fold interval d in Hrun.
    exists (if Qlt_bool d interval then [Sleep (interval - d)] else []).
    split; [exact Hrun|].
    destruct (Qlt_bool d interval) eqn:E.
    + apply Qlt_bool_iff in E. split; [reflexivity|]. split.
      * intros _ L. exfalso. apply (Qlt_not_le _ _ E L).
      * split.
        -- intros _. rewrite slept_app, Hs. cbn [slept]. rewrite Q.max_r by lra. ring.
        -- split; [intros e0 N; discriminate|].
           rewrite validation_loop_cons, Hrun. reflexivity.
    + apply Qlt_bool_false_iff in E. split.
      * intros _ L. exfalso. apply (Qlt_not_le _ _ L E).
      * split; [reflexivity|]. split.
        -- intros _. rewrite slept_app, Hs. cbn [slept]. rewrite Q.max_l by lra. ring.
        -- split; [intros e0 N; discriminate|].
           rewrite validation_loop_cons, Hrun. reflexivity.
  - exists [PrintTraceback e]. split; [exact Hrun|].
    split; [intros N; discriminate|]. split; [intros N; discriminate|].
    split; [intros N; discriminate|]. split.
    + intros e0 N. inversion N; subst e0. split; [reflexivity|].
      rewrite slept_app, Hs. cbn [slept]. ring.
    + rewrite validation_loop_cons, Hrun. reflexivity.
Qed.

Lemma scheduler_sleeps_remaining_interval_witness :
  let out := run (validate_step normalize_score_ref weight_score_ref sample_world)
               sample_validator in
  let interval := inject_Z (iteration_interval (settings sample_validator)) in
  let d := time_after_round sample_world - time_before_round sample_world in
  exists tail,
    run (loop_iteration normalize_score_ref weight_score_ref sample_world) sample_validator
      = (Ok tt, snd (fst out), snd out ++ tail) /\
    (fst (fst out) = Ok tt -> d < interval -> tail = [Sleep (interval - d)]) /\
    (fst (fst out) = Ok tt -> interval <= d -> tail = []) /\
    (fst (fst out) = Ok tt -> slept (snd out ++ tail) == Qmax 0 (interval - d)) /\
    (forall e, fst (fst out) = Raise e ->
       tail = [PrintTraceback e] /\ slept (snd out ++ tail) == 0) /\
    run (validation_loop normalize_score_ref weight_score_ref
           (sample_world :: [sample_world_vote_raises])) sample_validator =
      (let '(r2, self2, t2) :=
         run (validation_loop normalize_score_ref weight_score_ref
                [sample_world_vote_raises]) (snd (fst out)) in
       (r2, self2, (snd out ++ tail) ++ t2)).
Proof.
  intro out.
  apply (scheduler_sleeps_remaining_interval normalize_score_ref weight_score_ref
           sample_world [sample_world_vote_raises] sample_validator
           (fst (fst out)) (snd (fst out)) (snd out)).
  vm_compute. reflexivity.
Defined.

(** C7, refuted as stated: the round of [sample_world_registry_down] ends
    after 1 s, by an exception that the loop catches; the interval is
    60 s and [max(0, 60 - 1)] is 59 s, yet the turn ends without having
    slept. *)
Lemma scheduler_does_not_sleep_after_caught_exception :
  fst (fst (run (loop_iteration normalize_score_ref weight_score_ref
                   sample_world_registry_down) sample_validator)) = Ok tt /\
  time_after_round sample_world_registry_down - time_before_round sample_world_registry_down
    == 1 /\
  inject_Z (iteration_interval (settings sample_validator)) == 60 /\
  sleep_calls (snd (run (loop_iteration normalize_score_ref weight_score_ref
                           sample_world_registry_down) sample_validator)) = [] /\
  ~ slept (snd (run (loop_iteration normalize_score_ref weight_score_ref
                       sample_world_registry_down) sample_validator))
    == Qmax 0 (inject_Z (iteration_interval (settings sample_validator)) -
               (time_after_round sample_world_registry_down -
                time_before_round sample_world_registry_down)).
Proof.
  split; [reflexivity|]. split; [reflexivity|]. split; [reflexivity|].
  split; [reflexivity|]. vm_compute. discriminate.
Qed.

(** C8. When a round raises an exception, the turn of the loop catches it,
    prints the traceback and returns normally; the loop goes on with the
    next turn from the state in which the round left the validator; and no
    sequence of rounds, whatever they raise, ends the loop. *)
Theorem scheduler_survives_round_exception
  (normalize_score : dict uid pyfloat -> dict uid pyfloat -> dict uid pyfloat)
  (weight_score : dict uid pyfloat -> dict uid pyfloat)
  (w : World) (ws : list World) (self self1 : Validator) (e : exn) (t1 : list Event) :
  run (validate_step normalize_score weight_score w) self = (Raise e, self1, t1) ->
  run (loop_iteration normalize_score weight_score w) self
    = (Ok tt, self1, t1 ++ [PrintTraceback e]) /\
  run (validation_loop normalize_score weight_score (w :: ws)) self =
    (let '(r2, self2, t2) := run (validation_loop normalize_score weight_score ws) self1 in
     (r2, self2, (t1 ++ [PrintTraceback e]) ++ t2)) /\
  (forall ws0 self0,
     fst (fst (run (validation_loop normalize_score weight_score ws0) self0)) = Ok tt).
Proof.
  intro H.
  pose proof (loop_iteration_run normalize_score weight_score w self) as Hrun.
  rewrite H in Hrun.
  split; [exact Hrun|]. split.
  - rewrite validation_loop_cons, Hrun. reflexivity.
  - apply validation_loop_ok.
Qed.

Lemma scheduler_survives_round_exception_witness :
  let e := ConnectionError "registry unreachable" in
  run (loop_iteration normalize_score_ref weight_score_ref sample_world_registry_down)
    sample_validator = (Ok tt, sample_validator, [] ++ [PrintTraceback e]) /\
  run (validation_loop normalize_score_ref weight_score_ref
         (sample_world_registry_down :: [sample_world])) sample_validator =
    (let '(r2, self2, t2) :=
       run (validation_loop normalize_score_ref weight_score_ref [sample_world])
         sample_validator in
     (r2, self2, ([] ++ [PrintTraceback e]) ++ t2)) /\
  (forall ws0 self0,
     fst (fst (run (validation_loop normalize_score_ref weight_score_ref ws0) self0))
     = Ok tt).
Proof.
  intro e.
  apply (scheduler_survives_round_exception normalize_score_ref weight_score_ref
           sample_world_registry_down [sample_world] sample_validator sample_validator
           e []).
  reflexivity.
Defined.

Lemma in_deque_append_new (A : Type) (n : nat) (d : list A) (x : A) :
  (0 < n)%nat -> In x (deque_append n d x).
Proof.
  intro H. unfold deque_append.
  destruct (Nat.ltb_spec n (List.length (d ++ [x]))) as [L|L].
  - destruct d as [|a d]; cbn [app tl List.length] in *; [lia|].
    apply in_or_app. right. now left.
  - apply in_or_app. right. now left.
Qed.

(** C9. A round whose vote submission raises, or returns an error, still
    returns normally; the record that it appended before the submission is
    in the history; the turn of the loop returns normally without any
    traceback, and the loop goes on with the next turn. *)
Theorem vote_failure_keeps_record_and_loop
  (normalize_score : dict uid pyfloat -> dict uid pyfloat -> dict uid pyfloat)
  (weight_score : dict uid pyfloat -> dict uid pyfloat)
  (w : World) (ws : list World) (self : Validator)
  (r : result unit) (self' : Validator) (t : list Event)
  (uids : list uid) (weights : list pyfloat) :
  run (validate_step normalize_score weight_score w) self = (r, self', t) ->
  In (VoteCall uids weights) t ->
  ((exists e, vote w uids weights = Raise e) \/
   (exists reason, vote w uids weights = Ok (VoteRejected reason))) ->
  r = Ok tt /\
  (exists rec,
     time rec = datetime_now w /\
     weights_histories self'
       = deque_append weights_histories_maxlen (weights_histories self) rec /\
     In rec (weights_histories self')) /\
  (exists sleeps,
     run (loop_iteration normalize_score weight_score w) self = (Ok tt, self', t ++ sleeps) /\
     (forall e, ~ In (PrintTraceback e) (t ++ sleeps)) /\
     run (validation_loop normalize_score weight_score (w :: ws)) self =
       (let '(r2, self2, t2) := run (validation_loop normalize_score weight_score ws) self' in
        (r2, self2, (t ++ sleeps) ++ t2))).
Proof.
  intros H I _.
  pose proof (loop_iteration_run normalize_score weight_score w self) as Hrun.
  rewrite H in Hrun.
  apply validate_step_inv in H.
  destruct H as [(e & _ & _ & ->)|(-> & mi & p & _ & _ & H)]; [destruct I|].
  cbv zeta in H.
  destruct H as [(_ & _ & ->)|(_ & -> & Ht)]; [destruct I|].
  split; [reflexivity|]. split.
  - eexists. split; [|split; [reflexivity|]].
    + reflexivity.
    + cbn [weights_histories set_weights_histories].
      apply in_deque_append_new. unfold weights_histories_maxlen. lia.
  - cbv zeta in Hrun. eexists. split; [exact Hrun|]. split.
    + intros e J. apply in_app_or in J. destruct J as [J|J].
      * rewrite Ht in J. destruct (dict_is_empty _); [destruct J|].
        destruct J as [J|[]]. discriminate.
      * destruct (Qlt_bool _ _); [destruct J as [J|[]]; discriminate|destruct J].
    + rewrite validation_loop_cons, Hrun. reflexivity.
Qed.

Lemma vote_failure_keeps_record_and_loop_witness :
  let out := run (validate_step normalize_score_ref weight_score_ref
                    sample_world_vote_raises) sample_validator in
  fst (fst out) = Ok tt /\
  (exists rec,
     time rec = datetime_now sample_world_vote_raises /\
     weights_histories (snd (fst out))
       = deque_append weights_histories_maxlen (weights_histories sample_validator) rec /\
     In rec (weights_histories (snd (fst out)))) /\
  (exists sleeps,
     run (loop_iteration normalize_score_ref weight_score_ref sample_world_vote_raises)
       sample_validator = (Ok tt, snd (fst out), snd out ++ sleeps) /\
     (forall e, ~ In (PrintTraceback e) (snd out ++ sleeps)) /\
     run (validation_loop normalize_score_ref weight_score_ref
            (sample_world_vote_raises :: [sample_world])) sample_validator =
       (let '(r2, self2, t2) :=
          run (validation_loop normalize_score_ref weight_score_ref [sample_world])
            (snd (fst out)) in
        (r2, self2, (snd out ++ sleeps) ++ t2))).
Proof.
  intro out.
  apply (vote_failure_keeps_record_and_loop normalize_score_ref weight_score_ref
           sample_world_vote_raises [sample_world] sample_validator
           (fst (fst out)) (snd (fst out)) (snd out)
           [1%Z; 2%Z] [3072000 # 5120000; 3072000 # 7680000]).
  - vm_compute. reflexivity.
  - left. vm_compute. reflexivity.
  - left. exists (ConnectionError "ledger unreachable"). reflexivity.
Defined.

(** C10. Constructing a validator from settings that have the model "api"
    and no API URL ([None] or the empty string) never yields a validator,
    and raises the [ValueError] as soon as the netuid lookup has returned;
    with any other model, or with an API URL, the construction gets past the
    check and selects the scorer: CLIP for "clip", the remote scorer for
    "api", HPS for anything else. Without a settings object the construction
    raises a [TypeError] before it reaches the check. *)
Theorem api_model_requires_api_url
  (get_netuid : bool -> result Z) (s : ValidatorSettings) :
  (model s = "api" -> str_truthy (api_url s) = false ->
   (forall self, Validator_init get_netuid (Some s) <> Ok self) /\
   (forall n, get_netuid (use_testnet s) = Ok n ->
      Validator_init get_netuid (Some s)
        = Raise (ValueError "API URL is required when using api model"))) /\
  (model s <> "api" \/ str_truthy (api_url s) = true ->
   forall n, get_netuid (use_testnet s) = Ok n ->
     exists self,
       Validator_init get_netuid (Some s) = Ok self /\
       settings self = s /\
       self_model self =
         (if String.eqb (model s) "clip" then CLIP (clip_model s)
          else if String.eqb (model s) "api" then
            APIValidator_init
              (match api_url s with Some u => u | None => EmptyString end) (api_key s)
          else HPS)) /\
  (exists msg, Validator_init get_netuid None = Raise (TypeError msg)).
Proof.
  unfold Validator_init. split; [|split].
  - intros Hm Hu. rewrite Hm, Hu. cbn [String.eqb negb].
    replace ("api" =? "clip")%string with false by reflexivity.
    replace ("api" =? "api")%string with true by reflexivity.
    split.
    + intro self. destruct (get_netuid (use_testnet s)); discriminate.
    + intros n Hn. rewrite Hn. reflexivity.
  - intros H n Hn. rewrite Hn.
    destruct (String.eqb (model s) "clip") eqn:Ec.
    + eexists. split; [reflexivity|]. split; reflexivity.
    + destruct (String.eqb_spec (model s) "api") as [Ea|Ea].
      * destruct H as [H|H]; [contradiction|]. rewrite H. cbn [negb].
        eexists. split; [reflexivity|]. split; reflexivity.
      * eexists. split; [reflexivity|]. split; reflexivity.
  - eexists. reflexivity.
Qed.

Lemma api_model_requires_api_url_witness :
  Validator_init (fun _ => Ok 14%Z)
    (Some {| use_testnet := false; model := "api"; clip_model := "";
             api_url := Some ""; api_key := Some "secret";
             host := "0.0.0.0"; port := 8081;
             iteration_interval := 60; call_timeout := 30 |})
    = Raise (ValueError "API URL is required when using api model") /\
  exists self,
    Validator_init (fun _ => Ok 14%Z) (Some sample_settings) = Ok self /\
    settings self = sample_settings /\
    self_model self = APIValidator "http://scorer.example" None.
Proof.
  split.
  - apply (proj1 (api_model_requires_api_url (fun _ => Ok 14%Z)
             {| use_testnet := false; model := "api"; clip_model := "";
                api_url := Some ""; api_key := Some "secret";
                host := "0.0.0.0"; port := 8081;
                iteration_interval := 60; call_timeout := 30 |})
           eq_refl eq_refl) with (n := 14%Z).
    reflexivity.
  - apply (proj1 (proj2 (api_model_requires_api_url (fun _ => Ok 14%Z) sample_settings))
             (or_intror eq_refl) 14%Z eq_refl).
Defined.

(** * Further properties of the code *)

(** ** The scoring loop, as a filter *)

Lemma score_loop_kept (w : World) (self : Validator) (p : string)
  (mi : dict uid miner_info) (sd dd : dict uid pyfloat) :
  is_dict mi ->
  (forall k, In k (keys mi) -> ~ In k (keys sd)) ->
  (forall k, In k (keys mi) -> ~ In k (keys dd)) ->
  score_loop (backends w) (self_model self) p
    (map (fun kv => (fst kv, miner_answer w p (snd kv))) mi) sd dd =
  (sd ++ map (fun kv => (fst kv, miner_score w self p (snd kv)))
             (filter (miner_kept w self p) mi),
   dd ++ map (fun kv => (fst kv, snd (miner_answer w p (snd kv))))
             (filter (miner_kept w self p) mi)).
Proof.
  revert sd dd. induction mi as [|[u info] mi IH]; intros sd dd Hd Hs Hdd.
  - cbn. now rewrite !app_nil_r.
  - inversion Hd as [|? ? Hn Hd']; subst.
    assert (Hs' : forall k, In k (keys mi) -> ~ In k (keys sd))
      by (intros k I; apply Hs; now right).
    assert (Hdd' : forall k, In k (keys mi) -> ~ In k (keys dd))
      by (intros k I; apply Hdd; now right).
    cbn [map fst snd score_loop filter].
    destruct (miner_answer w p info) as [ans el] eqn:E.
    assert (K : miner_kept w self p (u, info) =
                match ans with
                | Some ((_ :: _) as img) =>
                    negb (Qeq_bool (calculate_score (backends w) (self_model self) img p) 0)
                | _ => false
                end).
    { unfold miner_kept, miner_score. cbn [snd]. rewrite E. cbn [fst].
      destruct ans as [[|b0 img]|]; reflexivity. }
    assert (S : miner_score w self p info =
                match ans with
                | Some img => calculate_score (backends w) (self_model self) img p
                | None => 0
                end).
    { unfold miner_score. rewrite E. reflexivity. }
    rewrite K. destruct ans as [[|b0 img]|].
    + apply IH; assumption.
    + destruct (Qeq_bool (calculate_score (backends w) (self_model self) (b0 :: img) p) 0);
        cbn [negb].
      * apply IH; assumption.
      * rewrite IH.
        -- rewrite !dict_set_fresh.
           ++ cbn [map fst snd]. rewrite S, E. cbn [snd]. now rewrite <- !app_assoc.
           ++ apply Z.eqb_spec.
           ++ apply Hdd. now left.
           ++ apply Z.eqb_spec.
           ++ apply Hs. now left.
        -- exact Hd'.
        -- intros k I J. apply in_keys_dict_set in J; [|apply Z.eqb_spec].
           destruct J as [->|J]; [now apply Hn|now apply (Hs' k)].
        -- intros k I J. apply in_keys_dict_set in J; [|apply Z.eqb_spec].
           destruct J as [->|J]; [now apply Hn|now apply (Hdd' k)].
    + apply IH; assumption.
Qed.

(** X1. The score and duration dictionaries of a round list exactly the
    miners of the registry whose payload is there and not empty and whose
    score is not 0, in the order of the registry, each with its score and
    with the time its answer took; so both have the same uids in the same
    order, all of them uids of the registry. *)
Theorem round_scores_are_the_kept_miners
  (w : World) (self : Validator) (mi : dict uid miner_info) (p : string) :
  is_dict mi ->
  round_scores w self mi p =
    (map (fun kv => (fst kv, miner_score w self p (snd kv)))
         (filter (miner_kept w self p) mi),
     map (fun kv => (fst kv, snd (miner_answer w p (snd kv))))
         (filter (miner_kept w self p) mi)) /\
  keys (fst (round_scores w self mi p)) = keys (snd (round_scores w self mi p)) /\
  keys (fst (round_scores w self mi p)) = keys (filter (miner_kept w self p) mi) /\
  incl (keys (fst (round_scores w self mi p))) (keys mi).
Proof.
  intro Hd.
  assert (E : round_scores w self mi p =
    (map (fun kv => (fst kv, miner_score w self p (snd kv)))
         (filter (miner_kept w self p) mi),
     map (fun kv => (fst kv, snd (miner_answer w p (snd kv))))
         (filter (miner_kept w self p) mi))).
  { unfold round_scores, keys, values. rewrite combine_keys_map.
    apply (score_loop_kept w self p mi [] [] Hd); intros k _ []. }
  split; [exact E|]. rewrite E. cbn [fst snd].
  rewrite (keys_map_value _ _ _ (fun kv => miner_score w self p (snd kv))).
  rewrite (keys_map_value _ _ _ (fun kv => snd (miner_answer w p (snd kv)))).
  split; [reflexivity|]. split; [reflexivity|].
  intros k I. unfold keys in *. apply in_map_iff in I.
  destruct I as (kv & <- & I). apply filter_In in I. apply in_map, I.
Qed.

Lemma round_scores_are_the_kept_miners_witness :
  round_scores sample_world sample_validator sample_miners "a cat" =
    ([(1%Z, 80); (2%Z, 40)], [(1%Z, 1); (2%Z, 1 # 2)]).
Proof.
  rewrite (proj1 (round_scores_are_the_kept_miners sample_world sample_validator
                    sample_miners "a cat" sample_miners_is_dict)).
  vm_compute. reflexivity.
Defined.

(** ** Dictionary comprehensions *)

Section ComprehensionFacts.
Variable K : Type.
Variable eqb : K -> K -> bool.
Hypothesis eqb_spec : forall x y, reflect (x = y) (eqb x y).
Variable V : Type.

Lemma Forall_values_dict_set (P : V -> Prop) (d : dict K V) (k : K) (v : V) :
  Forall P (values d) -> P v -> Forall P (values (dict_set eqb d k v)).
Proof.
  intros H Hv. induction d as [|[k0 v0] d IH]; cbn.
  - constructor; [exact Hv|constructor].
  - inversion H; subst. destruct (eqb k0 k); cbn; constructor; auto.
Qed.

Lemma dict_comprehension_invariant (keep : V -> bool) (d : dict K V) :
  is_dict (dict_comprehension eqb keep d) /\
  Forall (fun v => keep v = true) (values (dict_comprehension eqb keep d)).
Proof using eqb_spec.
  unfold dict_comprehension, items.
  enough (G : forall acc : dict K V,
             is_dict acc /\ Forall (fun v => keep v = true) (values acc) ->
             is_dict (fold_left (fun acc kv => if keep (snd kv)
                                   then dict_set eqb acc (fst kv) (snd kv) else acc) d acc) /\
             Forall (fun v => keep v = true)
               (values (fold_left (fun acc kv => if keep (snd kv)
                                   then dict_set eqb acc (fst kv) (snd kv) else acc) d acc))).
  { apply G. split; constructor. }
  induction d as [|[k v] d IH]; intros acc [Ha Hv]; [now split|].
  cbn [fold_left fst snd]. apply IH.
  destruct (keep v) eqn:E; [|now split].
  split.
  - apply is_dict_dict_set; assumption.
  - apply Forall_values_dict_set; assumption.
Qed.

Lemma dict_comprehension_none (keep : V -> bool) (d : dict K V) :
  Forall (fun v => keep v = false) (values d) -> dict_comprehension eqb keep d = [].
Proof.
  unfold dict_comprehension, items. intro H.
  enough (G : forall acc : dict K V,
             fold_left (fun acc kv => if keep (snd kv)
                          then dict_set eqb acc (fst kv) (snd kv) else acc) d acc = acc)
    by apply G.
  induction d as [|[k v] d IH]; intro acc; [reflexivity|].
  inversion H as [|? ? Hv Hd]; subst. cbn [fold_left fst snd] in *.
  rewrite Hv. apply IH, Hd.
Qed.

End ComprehensionFacts.

(** ** The shape of the traces *)

Lemma vote_calls_app (t1 t2 : list Event) :
  vote_calls (t1 ++ t2) = vote_calls t1 ++ vote_calls t2.
Proof. apply flat_map_app. Qed.

Lemma sleep_calls_app (t1 t2 : list Event) :
  sleep_calls (t1 ++ t2) = sleep_calls t1 ++ sleep_calls t2.
Proof. apply flat_map_app. Qed.

Lemma tracebacks_app (t1 t2 : list Event) :
  tracebacks (t1 ++ t2) = tracebacks t1 ++ tracebacks t2.
Proof. apply flat_map_app. Qed.

(** The trace of a round is empty or is one vote whose uids are distinct
    and whose weights are positive. *)
Lemma validate_step_trace_shape
  (normalize_score : dict uid pyfloat -> dict uid pyfloat -> dict uid pyfloat)
  (weight_score : dict uid pyfloat -> dict uid pyfloat)
  (w : World) (self : Validator) (r : result unit) (self' : Validator) (t : list Event) :
  run (validate_step normalize_score weight_score w) self = (r, self', t) ->
  t = [] \/
  exists uids weights,
    t = [VoteCall uids weights] /\ r = Ok tt /\
    NoDup uids /\ Forall (fun v => 0 < v) weights /\
    List.length uids = List.length weights /\ uids <> [].
Proof.
  intro H. apply validate_step_inv in H.
  destruct H as [(e & _ & _ & ->)|(-> & mi & p & _ & _ & [(_ & _ & ->)|(_ & _ & ->)])];
    [now left|now left|].
  set (sd := fst (round_scores w self mi p)).
  set (dd := snd (round_scores w self mi p)).
  assert (Hinv : is_dict (emitted_weights normalize_score weight_score sd dd) /\
                 Forall (fun v => Qlt_bool 0 v = true)
                   (values (emitted_weights normalize_score weight_score sd dd)))
    by apply (dict_comprehension_invariant uid Z.eqb Z.eqb_spec pyfloat).
  destruct Hinv as [Hd Hv].
  destruct (emitted_weights normalize_score weight_score sd dd) as [|kv em] eqn:E;
    [now left|right].
  cbn [dict_is_empty]. eexists. eexists. split; [reflexivity|]. split; [reflexivity|].
  split; [exact Hd|]. split.
  - eapply Forall_impl; [|exact Hv]. intros v Hq. apply Qlt_bool_iff, Hq.
  - split; [|discriminate]. unfold keys, values. now rewrite !length_map.
Qed.

(** ** What the loop leaves alone *)

Lemma set_weights_histories_same (self : Validator) :
  set_weights_histories self (weights_histories self) = self.
Proof. destruct self. reflexivity. Qed.

Lemma validate_step_frame
  (normalize_score : dict uid pyfloat -> dict uid pyfloat -> dict uid pyfloat)
  (weight_score : dict uid pyfloat -> dict uid pyfloat)
  (w : World) (self : Validator) (r : result unit) (self' : Validator) (t : list Event) :
  run (validate_step normalize_score weight_score w) self = (r, self', t) ->
  self' = set_weights_histories self (weights_histories self').
Proof.
  intro H. apply validate_step_inv in H.
  destruct H as [(e & _ & -> & _)|(_ & mi & p & _ & _ & [(_ & -> & _)|(_ & -> & _)])];
    try (symmetry; apply set_weights_histories_same).
  reflexivity.
Qed.

Lemma validation_loop_frame
  (normalize_score : dict uid pyfloat -> dict uid pyfloat -> dict uid pyfloat)
  (weight_score : dict uid pyfloat -> dict uid pyfloat)
  (ws : list World) (self : Validator) :
  snd (fst (run (validation_loop normalize_score weight_score ws) self)) =
  set_weights_histories self
    (weights_histories
       (snd (fst (run (validation_loop normalize_score weight_score ws) self)))).
Proof.
  revert self. induction ws as [|w ws IH]; intro self.
  - cbn. symmetry. apply set_weights_histories_same.
  - rewrite validation_loop_cons.
    pose proof (loop_iteration_state normalize_score weight_score w self) as Es.
    destruct (run (validate_step normalize_score weight_score w) self) as [[r0 self0] t0] eqn:E0.
    apply validate_step_frame in E0. cbn [fst snd] in Es.
    destruct (run (loop_iteration normalize_score weight_score w) self) as [[r1 self1] t1].
    cbn [fst snd] in Es. subst self1. specialize (IH self0).
    destruct (run (validation_loop normalize_score weight_score ws) self0) as [[r2 self2] t2].
    cbn [fst snd] in *. rewrite IH at 1. rewrite E0. reflexivity.
Qed.

(** X2. The loop changes nothing of the validator but its history: after
    any number of turns the settings, the netuid, the scorer chosen at
    construction and the call timeout are those it started with. *)
Theorem validation_loop_keeps_configuration
  (normalize_score : dict uid pyfloat -> dict uid pyfloat -> dict uid pyfloat)
  (weight_score : dict uid pyfloat -> dict uid pyfloat)
  (ws : list World) (self : Validator) :
  let self' := snd (fst (run (validation_loop normalize_score weight_score ws) self)) in
  settings self' = settings self /\
  netuid self' = netuid self /\
  self_model self' = self_model self /\
  self_call_timeout self' = self_call_timeout self.
Proof.
  intro self'. unfold self'.
  rewrite (validation_loop_frame normalize_score weight_score ws self).
  repeat split; reflexivity.
Qed.

(** The votes, the sleeps and the tracebacks of one turn of the loop. *)
Lemma loop_iteration_shape
  (normalize_score : dict uid pyfloat -> dict uid pyfloat -> dict uid pyfloat)
  (weight_score : dict uid pyfloat -> dict uid pyfloat)
  (w : World) (self : Validator) :
  let out := run (validate_step normalize_score weight_score w) self in
  let t := snd (run (loop_iteration normalize_score weight_score w) self) in
  let interval := inject_Z (iteration_interval (settings self)) in
  let d := time_after_round w - time_before_round w in
  vote_calls t = vote_calls (snd out) /\
  sleep_calls t =
    match fst (fst out) with
    | Ok _ => if Qlt_bool d interval then [interval - d] else []
    | Raise _ => []
    end /\
  tracebacks t =
    match fst (fst out) with
    | Ok _ => []
    | Raise e => [e]
    end.
Proof.
  cbv zeta. rewrite loop_iteration_run.
  destruct (run (validate_step normalize_score weight_score w) self) as [[r self1] t1] eqn:E.
  apply validate_step_trace_shape in E.
  assert (Hs : sleep_calls t1 = [] /\ tracebacks t1 = []).
  { destruct E as [->|(uids & weights & -> & _)]; split; reflexivity. }
  destruct Hs as [Hs Ht].
  destruct r as [[]|e]; cbn [fst snd]; cbv zeta;
    rewrite vote_calls_app, sleep_calls_app, tracebacks_app, Hs, Ht; cbn [app].
  - destruct (Qlt_bool _ _); cbn; rewrite ?app_nil_r; auto.
  - cbn. rewrite app_nil_r. auto.
Qed.

(** X3. Whatever [normalize_score] and [weight_score] compute, every vote
    that the loop submits has pairwise distinct uids, positive weights, as
    many weights as uids and at least one uid; and the loop submits at most
    one vote per round. *)
Theorem validation_loop_votes_well_formed
  (normalize_score : dict uid pyfloat -> dict uid pyfloat -> dict uid pyfloat)
  (weight_score : dict uid pyfloat -> dict uid pyfloat)
  (ws : list World) (self : Validator) :
  let t := snd (run (validation_loop normalize_score weight_score ws) self) in
  (List.length (vote_calls t) <= List.length ws)%nat /\
  Forall vote_well_formed (vote_calls t).
Proof.
  cbv zeta. revert self. induction ws as [|w ws IH]; intro self.
  - cbn. split; [lia|constructor].
  - rewrite validation_loop_cons.
    pose proof (loop_iteration_shape normalize_score weight_score w self) as Hs.
    cbv zeta in Hs. destruct Hs as (Hv & _ & _).
    destruct (run (validate_step normalize_score weight_score w) self) as [[r0 self0] t0] eqn:E0.
    apply validate_step_trace_shape in E0. cbn [snd] in Hv.
    destruct (run (loop_iteration normalize_score weight_score w) self) as [[r1 self1] t1].
    cbn [snd] in Hv. specialize (IH self1).
    destruct (run (validation_loop normalize_score weight_score ws) self1) as [[r2 self2] t2].
    cbn [snd] in *. rewrite vote_calls_app, Hv. destruct IH as [IHl IHf].
    destruct E0 as [->|(uids & weights & -> & _ & Hn & Hp & Hl & Hne)]; cbn.
    + split; [lia|exact IHf].
    + split; [lia|]. constructor; [|exact IHf].
      unfold vote_well_formed. cbn [fst snd]. auto.
Qed.

(** X4. The loop never calls [time.sleep] with a duration that is not
    positive, it sleeps at most once per round, and, when the clock does not
    go back during the rounds, never longer than the iteration interval. *)
Theorem validation_loop_sleeps_bounded
  (normalize_score : dict uid pyfloat -> dict uid pyfloat -> dict uid pyfloat)
  (weight_score : dict uid pyfloat -> dict uid pyfloat)
  (ws : list World) (self : Validator) :
  let t := snd (run (validation_loop normalize_score weight_score ws) self) in
  let interval := inject_Z (iteration_interval (settings self)) in
  (List.length (sleep_calls t) <= List.length ws)%nat /\
  Forall (fun s => 0 < s) (sleep_calls t) /\
  ((forall w, In w ws -> time_before_round w <= time_after_round w) ->
   Forall (fun s => s <= interval) (sleep_calls t)).
Proof.
  cbv zeta. revert self. induction ws as [|w ws IH]; intro self.
  - cbn. split; [lia|]. split; [constructor|intros _; constructor].
  - rewrite validation_loop_cons.
    pose proof (loop_iteration_shape normalize_score weight_score w self) as Hs.
    cbv zeta in Hs. destruct Hs as (_ & Hs & _).
    pose proof (loop_iteration_state normalize_score weight_score w self) as Es.
    destruct (run (validate_step normalize_score weight_score w) self) as [[r0 self0] t0] eqn:E0.
    apply validate_step_settings in E0. cbn [fst snd] in Hs, Es.
    destruct (run (loop_iteration normalize_score weight_score w) self) as [[r1 self1] t1].
    cbn [fst snd] in Hs, Es. subst self1. specialize (IH self0). rewrite E0 in IH.
    destruct (run (validation_loop normalize_score weight_score ws) self0) as [[r2 self2] t2].
    cbn [snd] in *. rewrite sleep_calls_app, Hs. destruct IH as (IHl & IHp & IHb).
    set (interval := inject_Z (iteration_interval (settings self))) in *.
    set (d := time_after_round w - time_before_round w).
    assert (Hone : forall l : list Q,
               (l = [] \/ exists s, l = [s] /\ 0 < s /\ s == interval - d) ->
               (List.length (l ++ sleep_calls t2) <= S (List.length ws))%nat /\
               Forall (fun s => 0 < s) (l ++ sleep_calls t2) /\
               ((forall w0, w = w0 \/ In w0 ws ->
                            time_before_round w0 <= time_after_round w0) ->
                Forall (fun s => s <= interval) (l ++ sleep_calls t2))).
    { intros l [->|(s & -> & Hp & He)]; cbn [app List.length].
      - split; [lia|]. split; [exact IHp|]. intro Hm. apply IHb. intros w0 I. apply Hm. now right.
      - split; [lia|]. split; [constructor; assumption|].
        intro Hm. constructor.
        + pose proof (Hm w (or_introl eq_refl)) as Hw. rewrite He. unfold d. lra.
        + apply IHb. intros w0 I. apply Hm. now right. }
    apply Hone.
    destruct r0 as [[]|e]; [|now left].
    destruct (Qlt_bool d interval) eqn:Eq; [right|now left].
    apply Qlt_bool_iff in Eq. exists (interval - d).
    split; [reflexivity|]. split; [lra|reflexivity].
Qed.

Lemma validation_loop_sleeps_bounded_witness :
  let ws := [sample_world; sample_world_vote_raises; sample_world_timeouts] in
  let t := snd (run (validation_loop normalize_score_ref weight_score_ref ws)
                  sample_validator) in
  Forall (fun s => s <= inject_Z (iteration_interval (settings sample_validator)))
    (sleep_calls t).
Proof.
  intros ws t.
  apply (proj2 (proj2 (validation_loop_sleeps_bounded normalize_score_ref weight_score_ref
                         ws sample_validator))).
  intros w [<-|[<-|[<-|[]]]]; vm_compute; discriminate.
Defined.

(** X5. Rounds that raise before scoring are each caught by the loop, which
    prints their traceback and nothing else: the validator is left as it
    was, nothing is submitted, and the loop does not sleep before the next
    round. *)
Theorem validation_loop_raising_rounds
  (normalize_score : dict uid pyfloat -> dict uid pyfloat -> dict uid pyfloat)
  (weight_score : dict uid pyfloat -> dict uid pyfloat)
  (ws : list World) (errs : list exn) (self : Validator) :
  Forall2 round_raises ws errs ->
  run (validation_loop normalize_score weight_score ws) self
    = (Ok tt, self, map PrintTraceback errs).
Proof.
  induction 1 as [|w e ws errs Hw _ IH]; [reflexivity|].
  rewrite validation_loop_cons, loop_iteration_run.
  assert (E : run (validate_step normalize_score weight_score w) self = (Raise e, self, [])).
  { destruct Hw as [Hw|(mi & Hm & Hp)].
    - apply validate_step_raise_miners, Hw.
    - apply (validate_step_raise_prompt normalize_score weight_score w self mi e Hm Hp). }
  rewrite E, IH. reflexivity.
Qed.

Lemma validation_loop_raising_rounds_witness :
  run (validation_loop normalize_score_ref weight_score_ref
         [sample_world_registry_down; sample_world_registry_down]) sample_validator
    = (Ok tt, sample_validator,
       map PrintTraceback [ConnectionError "registry unreachable";
                           ConnectionError "registry unreachable"]).
Proof.
  apply (validation_loop_raising_rounds normalize_score_ref weight_score_ref).
  repeat constructor.
Defined.

(** X6. A round that has scores but no positive weight still appends its
    record to the history, and submits no vote. *)
Theorem record_appended_without_vote
  (normalize_score : dict uid pyfloat -> dict uid pyfloat -> dict uid pyfloat)
  (weight_score : dict uid pyfloat -> dict uid pyfloat)
  (w : World) (self : Validator) (mi : dict uid miner_info) (p : string) :
  get_queryable_miners w = Ok mi ->
  random_prompt w = Ok p ->
  fst (round_scores w self mi p) <> [] ->
  Forall (fun v => v <= 0)
    (values (weight_score (normalize_score (fst (round_scores w self mi p))
                                           (snd (round_scores w self mi p))))) ->
  run (validate_step normalize_score weight_score w) self =
    (Ok tt,
     set_weights_histories self
       (deque_append weights_histories_maxlen (weights_histories self)
          (round_record normalize_score weight_score w
             (fst (round_scores w self mi p)) (snd (round_scores w self mi p)))),
     []).
Proof.
  intros H1 H2 Hne Hw.
  rewrite (validate_step_run normalize_score weight_score w self mi p H1 H2). cbv zeta.
  destruct (fst (round_scores w self mi p)) as [|kv sd] eqn:E; [contradiction|].
  cbn [dict_is_empty]. unfold emitted_weights.
  rewrite dict_comprehension_none; [reflexivity|].
  eapply Forall_impl; [|exact Hw]. intros v Hv. apply Qlt_bool_false_iff, Hv.
Qed.

Lemma record_appended_without_vote_witness :
  run (validate_step normalize_score_ref weight_score_ref sample_world_negative)
    sample_validator =
    (Ok tt,
     set_weights_histories sample_validator
       [{| time := 1700000240; data := [(7%Z, inject_Z (-14), 1, 0, 0)] |}],
     []).
Proof.
  rewrite (record_appended_without_vote normalize_score_ref weight_score_ref
             sample_world_negative sample_validator [(7%Z, "m7")] "a cat").
  - vm_compute. reflexivity.
  - reflexivity.
  - reflexivity.
  - vm_compute. discriminate.
  - vm_compute. constructor; [discriminate|constructor].
Defined.

Lemma last_skipn_snoc (A : Type) (n : nat) (l : list A) (x d : A) :
  (n <= List.length l)%nat -> last (skipn n (l ++ [x])) d = x.
Proof.
  intro H. rewrite skipn_app.
  replace (n - List.length l)%nat with 0%nat by lia. cbn [skipn].
  apply last_last.
Qed.

Lemma run_then_get_weights_history (A : Type) (m : M A) (self : Validator) :
  run (m ;;; get_weights_history) self =
    match run m self with
    | (Ok _, self1, t1) => (Ok (weights_histories self1), self1, t1)
    | (Raise e, self1, t1) => (Raise e, self1, t1)
    end.
Proof.
  unfold run, get_weights_history, get_self, ret.
  unfold bind at 1. destruct (m self) as [[[a|e] self1] t1]; [|reflexivity].
  unfold bind. cbn [app]. rewrite app_nil_r. reflexivity.
Qed.

(** X7. Read right after a round that had scores, the history snapshot of
    [get_weights_history] is the history of before followed by the record
    of the round, cut down to its last 10 items: the record of the round
    is its last item, and the reading changes nothing. After a round
    without scores the snapshot is the history of before. *)
Theorem history_snapshot_after_round
  (normalize_score : dict uid pyfloat -> dict uid pyfloat -> dict uid pyfloat)
  (weight_score : dict uid pyfloat -> dict uid pyfloat)
  (w : World) (self : Validator) (mi : dict uid miner_info) (p : string) :
  get_queryable_miners w = Ok mi ->
  random_prompt w = Ok p ->
  (List.length (weights_histories self) <= 10)%nat ->
  let sd := fst (round_scores w self mi p) in
  let dd := snd (round_scores w self mi p) in
  let rec := round_record normalize_score weight_score w sd dd in
  let before := weights_histories self in
  let round := run (validate_step normalize_score weight_score w) self in
  let out := run (validate_step normalize_score weight_score w ;;; get_weights_history) self in
  snd (fst out) = snd (fst round) /\
  snd out = snd round /\
  (sd = [] -> fst (fst out) = Ok before) /\
  (sd <> [] ->
   fst (fst out) = Ok (skipn (List.length (before ++ [rec]) - 10) (before ++ [rec])) /\
   forall snapshot, fst (fst out) = Ok snapshot -> last snapshot rec = rec).
Proof.
  intros H1 H2 Hlen. cbv zeta.
  rewrite run_then_get_weights_history.
  rewrite (validate_step_run normalize_score weight_score w self mi p H1 H2). cbv zeta.
  destruct (fst (round_scores w self mi p)) as [|kv sd'] eqn:E; cbn [dict_is_empty fst snd].
  - split; [reflexivity|]. split; [reflexivity|].
    split; [reflexivity|intro N; contradiction].
  - cbn [weights_histories set_weights_histories].
    split; [reflexivity|]. split; [reflexivity|]. split; [discriminate|intros _].
    set (rec := round_record normalize_score weight_score w (kv :: sd')
                  (snd (round_scores w self mi p))).
    assert (F : deque_append weights_histories_maxlen (weights_histories self) rec =
                skipn (List.length (weights_histories self ++ [rec]) - 10)
                      (weights_histories self ++ [rec])).
    { apply (fold_deque_append WeightHistory weights_histories_maxlen [rec]
               (weights_histories self)).
      unfold weights_histories_maxlen. exact Hlen. }
    rewrite F. split; [reflexivity|].
    intros snapshot Hs. inversion Hs; subst snapshot.
    apply last_skipn_snoc. rewrite length_app. cbn. lia.
Qed.

Lemma history_snapshot_after_round_witness :
  let sd := fst (round_scores sample_world sample_validator sample_miners "a cat") in
  let dd := snd (round_scores sample_world sample_validator sample_miners "a cat") in
  let rec := round_record normalize_score_ref weight_score_ref sample_world sd dd in
  let before := weights_histories sample_validator in
  let round := run (validate_step normalize_score_ref weight_score_ref sample_world)
                 sample_validator in
  let out := run (validate_step normalize_score_ref weight_score_ref sample_world ;;;
                  get_weights_history) sample_validator in
  snd (fst out) = snd (fst round) /\
  snd out = snd round /\
  (sd = [] -> fst (fst out) = Ok before) /\
  (sd <> [] ->
   fst (fst out) = Ok (skipn (List.length (before ++ [rec]) - 10) (before ++ [rec])) /\
   forall snapshot, fst (fst out) = Ok snapshot -> last snapshot rec = rec).
Proof.
  apply (history_snapshot_after_round normalize_score_ref weight_score_ref
           sample_world sample_validator sample_miners "a cat").
  - reflexivity.
  - reflexivity.
  - cbn. lia.
Defined.

(** X8. While the scorer raises on every payload, a round records nothing
    and submits nothing, and still returns normally: every answer gets the
    score 0 and is dropped. *)
Theorem scorer_outage_round_is_empty
  (normalize_score : dict uid pyfloat -> dict uid pyfloat -> dict uid pyfloat)
  (weight_score : dict uid pyfloat -> dict uid pyfloat)
  (w : World) (self : Validator) (mi : dict uid miner_info) (p : string) :
  get_queryable_miners w = Ok mi ->
  random_prompt w = Ok p ->
  (forall img, exists e, get_similarity (backends w) (self_model self) img p = Raise e) ->
  fst (round_scores w self mi p) = [] /\
  run (validate_step normalize_score weight_score w) self = (Ok tt, self, []).
Proof.
  intros H1 H2 Hout.
  assert (E : fst (round_scores w self mi p) = []).
  { destruct (fst (round_scores w self mi p)) as [|[u s] sd] eqn:E; [reflexivity|exfalso].
    assert (I : In u (keys (fst (round_scores w self mi p)))) by (rewrite E; now left).
    unfold round_scores in I. apply score_loop_in_keys in I.
    destruct I as [[]|(img & el & _ & _ & Hs)].
    unfold calculate_score in Hs. destruct (Hout img) as [e He]. rewrite He in Hs.
    discriminate. }
  split; [exact E|].
  rewrite (validate_step_run normalize_score weight_score w self mi p H1 H2).
  cbv zeta. rewrite E. reflexivity.
Qed.

Lemma scorer_outage_round_is_empty_witness :
  fst (round_scores sample_world sample_validator_hps sample_miners "a cat") = [] /\
  run (validate_step normalize_score_ref weight_score_ref sample_world) sample_validator_hps
    = (Ok tt, sample_validator_hps, []).
Proof.
  apply (scorer_outage_round_is_empty normalize_score_ref weight_score_ref
           sample_world sample_validator_hps sample_miners "a cat").
  - reflexivity.
  - reflexivity.
  - intro img. exists (RuntimeError "no HPS model"). reflexivity.
Defined.

(** X9. The remote scorer never makes up a score: [calculate_score] is not
    0 only when the endpoint replied with a JSON object whose "score"
    field, or else, when it has none, whose "similarity" field, is a value
    that [float] accepts, and then it is that number. A "similarity" field
    is not looked at when there is a "score" field, and a reply with
    neither gives the score 0. *)
Theorem api_score_comes_from_the_reply
  (b : Backends) (url : string) (auth : option string) (file : bytes) (prompt : string) :
  ~ calculate_score b (APIValidator url auth) file prompt == 0 ->
  exists reply v,
    api_post_json b (String.append url "/score") auth file prompt = Ok reply /\
    (dict_get String.eqb "score" reply = Some v \/
     (dict_get String.eqb "score" reply = None /\
      dict_get String.eqb "similarity" reply = Some v)) /\
    py_float b v = Ok (calculate_score b (APIValidator url auth) file prompt).
Proof.
  unfold calculate_score, get_similarity. intro H.
  destruct (api_post_json b (String.append url "/score") auth file prompt) as [reply|e];
    [|exfalso; apply H; reflexivity].
  exists reply.
  destruct (dict_get String.eqb "score" reply) as [v|] eqn:Es.
  - exists v. split; [reflexivity|]. split; [now left|].
    destruct (py_float b v); [reflexivity|exfalso; apply H; reflexivity].
  - destruct (dict_get String.eqb "similarity" reply) as [v|] eqn:Em;
      [|exfalso; apply H; reflexivity].
    exists v. split; [reflexivity|]. split; [now right|].
    destruct (py_float b v); [reflexivity|exfalso; apply H; reflexivity].
Qed.

Lemma api_score_comes_from_the_reply_witness :
  exists reply v,
    api_post_json sample_backends_nonneg (String.append "http://scorer.example" "/score")
      None [Byte.x60] "a cat" = Ok reply /\
    (dict_get String.eqb "score" reply = Some v \/
     (dict_get String.eqb "score" reply = None /\
      dict_get String.eqb "similarity" reply = Some v)) /\
    py_float sample_backends_nonneg v
      = Ok (calculate_score sample_backends_nonneg
              (APIValidator "http://scorer.example" None) [Byte.x60] "a cat").
Proof.
  apply (api_score_comes_from_the_reply sample_backends_nonneg "http://scorer.example"
           None [Byte.x60] "a cat").
  vm_compute. discriminate.
Defined.

(** ** Trailing slashes of the endpoint URL *)

Lemma string_append_assoc (a b c : string) :
  String.append (String.append a b) c = String.append a (String.append b c).
Proof.
  induction a as [|x a IH]; cbn; [reflexivity|now rewrite IH].
Qed.

Lemma rstrip_slash_app_slash (s : string) :
  rstrip_slash (String.append s "/") = rstrip_slash s.
Proof.
  induction s as [|c s IH]; [reflexivity|].
  cbn [String.append rstrip_slash]. rewrite IH. reflexivity.
Qed.

Lemma rstrip_slash_app_slashes (s : string) (n : nat) :
  rstrip_slash (String.append s (slashes n)) = rstrip_slash s.
Proof.
  revert s. induction n as [|n IH]; intro s; cbn [slashes].
  - f_equal. induction s as [|c s IHs]; cbn; [reflexivity|now rewrite IHs].
  - change (String "/"%char (slashes n)) with (String.append "/" (slashes n)).
    rewrite <- string_append_assoc, IH. apply rstrip_slash_app_slash.
Qed.

Lemma rstrip_slash_no_trailing (s t : string) :
  rstrip_slash s <> String.append t "/".
Proof.
  revert t. induction s as [|c s IH]; intro t; cbn [rstrip_slash].
  - destruct t; discriminate.
  - destruct (rstrip_slash s) as [|c' r] eqn:E.
    + destruct (Ascii.eqb_spec c "/"%char) as [->|N].
      * destruct t; discriminate.
      * destruct t as [|x [|y t]]; cbn; try discriminate.
        intro H. inversion H. contradiction.
    + destruct t as [|x t]; cbn; [discriminate|].
      intro H. inversion H as [[Hx Ht]]. apply (IH t). exact Ht.
Qed.

Lemma rstrip_slash_prefix (s : string) :
  exists n, s = String.append (rstrip_slash s) (slashes n).
Proof.
  induction s as [|c s [n IH]]; [exists 0%nat; reflexivity|].
  cbn [rstrip_slash].
  destruct (rstrip_slash s) as [|c' r] eqn:E.
  - destruct (Ascii.eqb_spec c "/"%char) as [->|N].
    + exists (S n). cbn in *. now rewrite <- IH.
    + exists n. cbn in *. now rewrite <- IH.
  - exists n. cbn in *. now rewrite <- IH.
Qed.

(** X10. Trailing slashes of the configured API URL do not matter: the
    remote scorer built from a URL followed by any number of "/" is the one
    built from the URL; the URL it keeps is the configured one without its
    trailing slashes and does not end with "/" (the address requested is
    that URL followed by "/score"). *)
Theorem api_url_trailing_slashes_ignored
  (u : string) (key : option string) (n : nat) :
  APIValidator_init (String.append u (slashes n)) key = APIValidator_init u key /\
  exists url auth k,
    APIValidator_init u key = APIValidator url auth /\
    u = String.append url (slashes k) /\
    (forall t, url <> String.append t "/").
Proof.
  unfold APIValidator_init. split.
  - now rewrite rstrip_slash_app_slashes.
  - destruct (rstrip_slash_prefix u) as [k Hk].
    exists (rstrip_slash u), (if str_truthy key then key else None), k.
    split; [reflexivity|]. split; [exact Hk|].
    intro t. apply rstrip_slash_no_trailing.
Qed.

(** ** The NSFW check *)

(** X11. [check_nsfw] answers [True] exactly when the classifier output has
    an item labelled "nsfw" whose score is above 0.8, strictly; items with
    another label, or an "nsfw" item at 0.8 or below, do not count, and an
    empty output gives [False]. An exception of the classifier goes through. *)
Theorem check_nsfw_iff
  (classifier : bytes -> result (list (string * pyfloat))) (file : bytes) :
  (forall cs, classifier file = Ok cs ->
     exists answer,
       check_nsfw classifier file = Ok answer /\
       (answer = true <->
        exists c, In c cs /\ fst c = "nsfw" /\ 8 # 10 < snd c)) /\
  (forall e, classifier file = Raise e -> check_nsfw classifier file = Raise e).
Proof.
  unfold check_nsfw. split.
  - intros cs ->. eexists. split; [reflexivity|].
    induction cs as [|c cs IH]; cbn [check_nsfw_loop].
    + split; [discriminate|intros (c & [] & _)].
    + destruct (String.eqb_spec (fst c) "nsfw") as [El|El]; cbn [andb].
      * destruct (Qlt_bool (8 # 10) (snd c)) eqn:Es.
        -- split; [intros _|reflexivity].
           exists c. split; [now left|]. split; [exact El|apply Qlt_bool_iff, Es].
        -- rewrite IH. split.
           ++ intros (c0 & I & H). exists c0. split; [now right|exact H].
           ++ intros (c0 & [<-|I] & Hl & Hs).
              ** apply Qlt_bool_iff in Hs. congruence.
              ** exists c0. auto.
      * rewrite IH. split.
        -- intros (c0 & I & H). exists c0. split; [now right|exact H].
        -- intros (c0 & [<-|I] & Hl & Hs); [contradiction|]. exists c0. auto.
  - intros e ->. reflexivity.
Qed.

(** ** Lookups after updates *)

Section UpdateFacts.
Variable K : Type.
Variable eqb : K -> K -> bool.
Hypothesis eqb_spec : forall x y, reflect (x = y) (eqb x y).
Variable V : Type.

Lemma dict_get_dict_set_same (d : dict K V) (k : K) (v : V) :
  dict_get eqb k (dict_set eqb d k v) = Some v.
Proof using eqb_spec.
  induction d as [|[k0 v0] d IH]; cbn.
  - destruct (eqb_spec k k); [reflexivity|contradiction].
  - destruct (eqb_spec k0 k) as [->|N]; cbn.
    + destruct (eqb_spec k k); [reflexivity|contradiction].
    + destruct (eqb_spec k0 k); [contradiction|exact IH].
Qed.

Lemma dict_get_dict_set_other (d : dict K V) (k k' : K) (v : V) :
  k' <> k -> dict_get eqb k' (dict_set eqb d k v) = dict_get eqb k' d.
Proof using eqb_spec.
  intro N. induction d as [|[k0 v0] d IH]; cbn.
  - destruct (eqb_spec k k'); [congruence|reflexivity].
  - destruct (eqb_spec k0 k) as [->|N0]; cbn.
    + destruct (eqb_spec k k'); [congruence|reflexivity].
    + destruct (eqb_spec k0 k'); [reflexivity|exact IH].
Qed.

Lemma dict_get_not_in (d : dict K V) (k : K) :
  ~ In k (keys d) -> dict_get eqb k d = None.
Proof using eqb_spec.
  induction d as [|[k0 v0] d IH]; cbn; intro H; [reflexivity|].
  destruct (eqb_spec k0 k) as [->|N]; [exfalso; apply H; now left|].
  apply IH. intro I. apply H. now right.
Qed.

Lemma dict_get_dict_update (d e : dict K V) (k : K) :
  is_dict e ->
  dict_get eqb k (dict_update eqb d e) =
    match dict_get eqb k e with
    | Some v => Some v
    | None => dict_get eqb k d
    end.
Proof using eqb_spec.
  unfold dict_update, is_dict. revert d.
  induction e as [|[k0 v0] e IH]; intros d H; [reflexivity|].
  inversion H as [|? ? Hn He]; subst. cbn [fold_left fst snd dict_get].
  rewrite (IH _ He).
  destruct (eqb_spec k0 k) as [->|N].
  - rewrite (dict_get_not_in e k Hn). apply dict_get_dict_set_same.
  - destruct (dict_get eqb k e); [reflexivity|].
    apply dict_get_dict_set_other. congruence.
Qed.

End UpdateFacts.

(** ** The miner side *)

(** The parameters of [sample] before the model is set. *)
Lemma sample_params_lookup (self : Miner.CustomAPIImageMiner)
  (prompt negative_prompt : string) (steps : Z) (seed : option Z)
  (kwargs : dict string jvalue) (k : string) :
  is_dict (Miner.additional_params self) ->
  is_dict kwargs ->
  (k <> "model" \/ Miner.self_model self = EmptyString) ->
  dict_get String.eqb k
    (Miner.sample_params self prompt negative_prompt steps seed kwargs) =
  match dict_get String.eqb k kwargs with
  | Some v => Some v
  | None =>
      match dict_get String.eqb k (Miner.additional_params self) with
      | Some v => Some v
      | None =>
          match dict_get String.eqb k
                  (match seed with
                   | None => []
                   | Some sd => [("seed", JNumber (inject_Z sd))]
                   end) with
          | Some v => Some v
          | None =>
              dict_get String.eqb k
                [("prompt", JString prompt);
                 ("negative_prompt", JString negative_prompt);
                 ("steps", JNumber (inject_Z steps))]
          end
      end
  end.
Proof.
  intros Ha Hk Hm. unfold Miner.sample_params.
  assert (Hs : is_dict (match seed with
                        | None => []
                        | Some sd => [("seed", JNumber (inject_Z sd))]
                        end : dict string jvalue)).
  { destruct seed; repeat constructor. intros []. }
  assert (E : forall params : dict string jvalue,
             dict_get String.eqb k
               (match Miner.self_model self with
                | EmptyString => params
                | String _ _ =>
                    dict_set String.eqb params "model" (JString (Miner.self_model self))
                end) = dict_get String.eqb k params).
  { intro params. destruct (Miner.self_model self) as [|c m]; [reflexivity|].
    destruct Hm as [Hm|Hm]; [|discriminate].
    apply dict_get_dict_set_other; [apply String.eqb_spec|exact Hm]. }
  rewrite E.
  rewrite !(dict_get_dict_update string String.eqb String.eqb_spec jvalue) by assumption.
  reflexivity.
Qed.

(** X13. In the parameters that [sample] sends, the model of the miner,
    when it has one, is what "model" holds, whatever the caller or the
    configuration gave; apart from that, an extra keyword argument of the
    caller wins over the configured additional parameters, which win over
    the prompt, negative prompt, steps and seed of the call; and there is a
    "seed" only if one of the three gave it. *)
Theorem sample_params_precedence (self : Miner.CustomAPIImageMiner)
  (prompt negative_prompt : string) (steps : Z) (seed : option Z)
  (kwargs : dict string jvalue) :
  is_dict (Miner.additional_params self) ->
  is_dict kwargs ->
  let params := Miner.sample_params self prompt negative_prompt steps seed kwargs in
  (Miner.self_model self <> EmptyString ->
   dict_get String.eqb "model" params = Some (JString (Miner.self_model self))) /\
  (forall k v, (k <> "model" \/ Miner.self_model self = EmptyString) ->
     dict_get String.eqb k kwargs = Some v -> dict_get String.eqb k params = Some v) /\
  (forall k v, (k <> "model" \/ Miner.self_model self = EmptyString) ->
     dict_get String.eqb k kwargs = None ->
     dict_get String.eqb k (Miner.additional_params self) = Some v ->
     dict_get String.eqb k params = Some v) /\
  (dict_get String.eqb "prompt" kwargs = None ->
   dict_get String.eqb "prompt" (Miner.additional_params self) = None ->
   dict_get String.eqb "prompt" params = Some (JString prompt)) /\
  (seed = None ->
   dict_get String.eqb "seed" kwargs = None ->
   dict_get String.eqb "seed" (Miner.additional_params self) = None ->
   dict_get String.eqb "seed" params = None).
Proof.
  intros Ha Hk params. unfold params. split; [|split; [|split; [|split]]].
  - intro Hm. unfold Miner.sample_params.
    destruct (Miner.self_model self) as [|c m]; [contradiction|].
    apply dict_get_dict_set_same. apply String.eqb_spec.
  - intros k v Hm Hv.
    rewrite (sample_params_lookup self prompt negative_prompt steps seed kwargs k Ha Hk Hm).
    rewrite Hv. reflexivity.
  - intros k v Hm Hn Hv.
    rewrite (sample_params_lookup self prompt negative_prompt steps seed kwargs k Ha Hk Hm).
    rewrite Hn, Hv. reflexivity.
  - intros Hn Hv.
    assert (Np : "prompt" <> "model") by discriminate.
    rewrite (sample_params_lookup self prompt negative_prompt steps seed kwargs "prompt"
               Ha Hk (or_introl Np)).
    rewrite Hn, Hv. destruct seed; reflexivity.
  - intros -> Hn Hv.
    assert (Ns : "seed" <> "model") by discriminate.
    rewrite (sample_params_lookup self prompt negative_prompt steps None kwargs "seed"
               Ha Hk (or_introl Ns)).
    rewrite Hn, Hv. reflexivity.
Qed.

Lemma sample_params_precedence_witness :
  let self := Miner.CustomAPIImageMiner_init "secret" "http://images.example/" "sdxl" None
                (Some [("steps", JNumber 8); ("model", JString "other")]) in
  let params := Miner.sample_params self "a cat" "" 50 None [("steps", JNumber 4)] in
  dict_get String.eqb "model" params = Some (JString "sdxl") /\
  dict_get String.eqb "steps" params = Some (JNumber 4) /\
  dict_get String.eqb "prompt" params = Some (JString "a cat") /\
  dict_get String.eqb "seed" params = None.
Proof.
  intros self params.
  assert (Ha : is_dict (Miner.additional_params self)).
  { cbn. repeat constructor; cbn; intuition discriminate. }
  assert (Hk : is_dict [("steps", JNumber 4)] (K := string) (V := jvalue)).
  { repeat constructor. intros []. }
  pose proof (sample_params_precedence self "a cat" "" 50 None [("steps", JNumber 4)] Ha Hk)
    as (Hm & Hkw & _ & Hp & Hs).
  split; [apply Hm; discriminate|]. split; [|split].
  - apply Hkw; [left; discriminate|reflexivity].
  - apply Hp; reflexivity.
  - apply Hs; reflexivity.
Defined.

(** X14. What [sample] returns comes from the reply to its request to
    [base_url + "/generate"]: the "image" field when there is one, else the
    first item of the "images" field. A reply with neither field raises the
    [ValueError], an empty "images" list raises an [IndexError], and an
    exception of the request goes through. *)
Theorem sample_returns_the_image_of_the_reply
  (post : string -> dict string string -> dict string jvalue -> result (dict string jvalue))
  (self : Miner.CustomAPIImageMiner)
  (prompt negative_prompt : string) (steps : Z) (seed : option Z)
  (kwargs : dict string jvalue) :
  let request :=
    post (String.append (Miner.base_url self) "/generate") (Miner.headers self)
      (Miner.sample_params self prompt negative_prompt steps seed kwargs) in
  let out := Miner.sample post self prompt negative_prompt steps seed kwargs in
  (forall v, out = inl v ->
     exists reply,
       request = Ok reply /\
       (dict_get String.eqb "image" reply = Some v \/
        (dict_get String.eqb "image" reply = None /\
         exists images, dict_get String.eqb "images" reply = Some images /\
                        Miner.py_first images = inl v))) /\
  (forall reply, request = Ok reply ->
     dict_get String.eqb "image" reply = None ->
     dict_get String.eqb "images" reply = None ->
     out = inr (Miner.Exn (ValueError "Unexpected API response format"))) /\
  (forall reply, request = Ok reply ->
     dict_get String.eqb "image" reply = None ->
     dict_get String.eqb "images" reply = Some (JArray []) ->
     exists msg, out = inr (Miner.IndexError msg)) /\
  (forall e, request = Raise e -> out = inr (Miner.Exn e)).
Proof.
  cbv zeta. unfold Miner.sample.
  destruct (post _ _ _) as [reply|e].
  - split; [|split; [|split]].
    + intros v H. exists reply. split; [reflexivity|].
      destruct (dict_get String.eqb "image" reply) as [x|].
      * inversion H; subst. now left.
      * right. split; [reflexivity|].
        destruct (dict_get String.eqb "images" reply) as [imgs|]; [|discriminate].
        exists imgs. split; [reflexivity|exact H].
    + intros r H Hi Hs. inversion H; subst r. rewrite Hi, Hs. reflexivity.
    + intros r H Hi Hs. inversion H; subst r. rewrite Hi, Hs. eexists. reflexivity.
    + intros e H. discriminate.
  - split; [intros v H; discriminate|].
    split; [intros r H; discriminate|]. split; [intros r H; discriminate|].
    intros e0 H. inversion H. reflexivity.
Qed.

Lemma sample_returns_the_image_of_the_reply_witness :
  let post := fun (_ : string) (_ : dict string string) (_ : dict string jvalue) =>
                Ok [("images", JArray [JString "aGVsbG8="; JString "d29ybGQ="])] in
  let self := Miner.CustomAPIImageMiner_init "secret" "http://images.example/" "sdxl"
                None None in
  exists reply,
    post (String.append (Miner.base_url self) "/generate") (Miner.headers self)
      (Miner.sample_params self "a cat" "" 50 None []) = Ok reply /\
    (dict_get String.eqb "image" reply = Some (JString "aGVsbG8=") \/
     (dict_get String.eqb "image" reply = None /\
      exists images, dict_get String.eqb "images" reply = Some images /\
                     Miner.py_first images = inl (JString "aGVsbG8="))).
Proof.
  intros post self.
  apply (proj1 (sample_returns_the_image_of_the_reply post self "a cat" "" 50 None [])).
  reflexivity.
Defined.

Lemma check_nsfw_iff_witness :
  let classifier := fun _ : bytes => Ok [("normal", 9 # 10); ("nsfw", 85 # 100)] in
  exists answer,
    check_nsfw classifier [Byte.x60] = Ok answer /\
    (answer = true <->
     exists c, In c [("normal", 9 # 10); ("nsfw", 85 # 100)] /\
               fst c = "nsfw" /\ 8 # 10 < snd c).
Proof.
  intro classifier.
  apply (proj1 (check_nsfw_iff classifier [Byte.x60])).
  reflexivity.
Defined.

(** ** The history after the loop *)

Lemma round_record_of_frame
  (normalize_score : dict uid pyfloat -> dict uid pyfloat -> dict uid pyfloat)
  (weight_score : dict uid pyfloat -> dict uid pyfloat)
  (w : World) (self : Validator) (h : list WeightHistory) :
  round_record_of normalize_score weight_score w (set_weights_histories self h) =
  round_record_of normalize_score weight_score w self.
Proof. reflexivity. Qed.

Lemma validate_step_history
  (normalize_score : dict uid pyfloat -> dict uid pyfloat -> dict uid pyfloat)
  (weight_score : dict uid pyfloat -> dict uid pyfloat)
  (w : World) (self : Validator) :
  weights_histories (snd (fst (run (validate_step normalize_score weight_score w) self))) =
  fold_left (deque_append weights_histories_maxlen)
    (round_record_of normalize_score weight_score w self) (weights_histories self).
Proof.
  unfold round_record_of.
  destruct (get_queryable_miners w) as [mi|e] eqn:H1.
  2:{ rewrite (validate_step_raise_miners normalize_score weight_score w self e H1).
      reflexivity. }
  destruct (random_prompt w) as [p|e] eqn:H2.
  2:{ rewrite (validate_step_raise_prompt normalize_score weight_score w self mi e H1 H2).
      reflexivity. }
  rewrite (validate_step_run normalize_score weight_score w self mi p H1 H2). cbv zeta.
  destruct (fst (round_scores w self mi p)) as [|kv sd]; reflexivity.
Qed.

Lemma validation_loop_history
  (normalize_score : dict uid pyfloat -> dict uid pyfloat -> dict uid pyfloat)
  (weight_score : dict uid pyfloat -> dict uid pyfloat)
  (ws : list World) (self : Validator) :
  weights_histories
    (snd (fst (run (validation_loop normalize_score weight_score ws) self))) =
  fold_left (deque_append weights_histories_maxlen)
    (flat_map (fun w => round_record_of normalize_score weight_score w self) ws)
    (weights_histories self).
Proof.
  revert self. induction ws as [|w ws IH]; intro self; [reflexivity|].
  rewrite validation_loop_cons.
  pose proof (loop_iteration_state normalize_score weight_score w self) as Es.
  pose proof (validate_step_history normalize_score weight_score w self) as Eh.
  destruct (run (validate_step normalize_score weight_score w) self) as [[r0 self0] t0] eqn:E0.
  apply validate_step_frame in E0. cbn [fst snd] in Es, Eh.
  destruct (run (loop_iteration normalize_score weight_score w) self) as [[r1 self1] t1].
  cbn [fst snd] in Es. subst self1. specialize (IH self0).
  destruct (run (validation_loop normalize_score weight_score ws) self0) as [[r2 self2] t2].
  cbn [fst snd] in *. rewrite IH, Eh. cbn [flat_map]. rewrite fold_left_app.
  f_equal. rewrite E0. apply flat_map_ext. intro w0.
  apply round_record_of_frame.
Qed.

(** C6. From its construction on and after any number of turns of the
    loop, the history of a validator holds at most 10 records, and these
    are the last 10 of the records that the rounds appended, in the order
    of the rounds: when the rounds have appended 11 records, the first one
    is gone and the 10 others are there in order. *)
Theorem weights_histories_bounded_fifo
  (normalize_score : dict uid pyfloat -> dict uid pyfloat -> dict uid pyfloat)
  (weight_score : dict uid pyfloat -> dict uid pyfloat)
  (get_netuid : bool -> result Z) (settings0 : option ValidatorSettings)
  (self : Validator) (ws : list World) :
  Validator_init get_netuid settings0 = Ok self ->
  let records :=
    flat_map (fun w => round_record_of normalize_score weight_score w self) ws in
  let after :=
    weights_histories
      (snd (fst (run (validation_loop normalize_score weight_score ws) self))) in
  (List.length after <= 10)%nat /\
  after = skipn (List.length records - 10) records /\
  (forall oldest rs,
     records = oldest :: rs -> List.length rs = 10%nat -> after = rs).
Proof.
  intros Hinit records after. apply Validator_init_history in Hinit.
  assert (E : after = skipn (List.length records - 10) records).
  { unfold after. rewrite validation_loop_history. fold records. rewrite Hinit.
    rewrite fold_deque_append by (cbn; lia). reflexivity. }
  split; [|split].
  - rewrite E, length_skipn. lia.
  - exact E.
  - intros oldest rs Hr Hl. rewrite E, Hr. cbn [List.length]. rewrite Hl. reflexivity.
Qed.

Lemma weights_histories_bounded_fifo_witness :
  let ws := map sample_world_at [1; 2; 3; 4; 5; 6; 7; 8; 9; 10; 11]%Z in
  let records :=
    flat_map (fun w => round_record_of normalize_score_ref weight_score_ref w
                         sample_validator) ws in
  let after :=
    weights_histories
      (snd (fst (run (validation_loop normalize_score_ref weight_score_ref ws)
                   sample_validator))) in
  (List.length after <= 10)%nat /\
  after = skipn (List.length records - 10) records /\
  (forall oldest rs,
     records = oldest :: rs -> List.length rs = 10%nat -> after = rs).
Proof.
  intros ws records after.
  apply (weights_histories_bounded_fifo normalize_score_ref weight_score_ref
           (fun _ => Ok 14%Z) (Some sample_settings) sample_validator ws).
  vm_compute. reflexivity.
Defined.

(** X15. After any number of turns of the loop, the history is the history
    of before followed by the records of the rounds that had scores, one
    per such round and in the order of the rounds, cut down to its last 10
    items; rounds that raised or had no score leave no record. *)
Theorem validation_loop_history_is_last_records
  (normalize_score : dict uid pyfloat -> dict uid pyfloat -> dict uid pyfloat)
  (weight_score : dict uid pyfloat -> dict uid pyfloat)
  (ws : list World) (self : Validator) :
  (List.length (weights_histories self) <= 10)%nat ->
  let records :=
    flat_map (fun w => round_record_of normalize_score weight_score w self) ws in
  let all := weights_histories self ++ records in
  weights_histories
    (snd (fst (run (validation_loop normalize_score weight_score ws) self)))
  = skipn (List.length all - 10) all.
Proof.
  intros Hlen records all.
  rewrite validation_loop_history.
  apply fold_deque_append. exact Hlen.
Qed.

Lemma validation_loop_history_is_last_records_witness :
  let ws := [sample_world; sample_world_registry_down; sample_world_timeouts;
             sample_world_vote_raises] in
  weights_histories
    (snd (fst (run (validation_loop normalize_score_ref weight_score_ref ws)
                 sample_validator)))
  = [round_record normalize_score_ref weight_score_ref sample_world
       [(1%Z, 80); (2%Z, 40)] [(1%Z, 1); (2%Z, 1 # 2)];
     round_record normalize_score_ref weight_score_ref sample_world_vote_raises
       [(1%Z, 80); (2%Z, 40)] [(1%Z, 1); (2%Z, 1 # 2)]].
Proof.
  intro ws.
  rewrite (validation_loop_history_is_last_records normalize_score_ref weight_score_ref
             ws sample_validator).
  - vm_compute. reflexivity.
  - cbn. lia.
Defined.
